(** * peruse: a browser agent driven by a language model

    Shallow embedding of [src/peruse/agent.py] (class [BrowserAgent]) and
    proofs about its action executor, its command loop and its shutdown.

    The Python strings are modelled as [string] (byte strings, UTF-8);
    [upper] and [lower] act on the ASCII letters, which is all the keyword
    tests of the agent look at.  The browser-automation engine, the
    completion service, the console of the rich library and the JSON
    library are outside the repository: they appear as an environment that
    answers each call, possibly by raising. *)

From Stdlib Require Import String Ascii List ZArith Lia Bool.
Import ListNotations.
Local Open Scope string_scope.
Local Open Scope Z_scope.

(** ** Python string operations used by the agent *)

Module PyStr.

(** [s.startswith(p)] *)
Definition startswith (p s : string) : bool := String.prefix p s.

(** [needle in hay] *)
Fixpoint contains (needle hay : string) : bool :=
  match hay with
  | EmptyString => String.prefix needle EmptyString
  | String _ rest => String.prefix needle hay || contains needle rest
  end.

(** [s.find(c)] for a one-character [c]: the least index, or -1. *)
Fixpoint find (c : ascii) (s : string) : Z :=
  match s with
  | EmptyString => -1
  | String a rest =>
      if Ascii.eqb a c then 0
      else let i := find c rest in if i <? 0 then -1 else i + 1
  end.

(** [s.rfind(c)] for a one-character [c]: the greatest index, or -1. *)
Fixpoint rfind (c : ascii) (s : string) : Z :=
  match s with
  | EmptyString => -1
  | String a rest =>
      let i := rfind c rest in
      if 0 <=? i then i + 1
      else if Ascii.eqb a c then 0 else -1
  end.

(** [s[i:j]] for [0 <= i <= j]. *)
Definition slice (s : string) (i j : Z) : string :=
  String.substring (Z.to_nat i) (Z.to_nat (j - i)) s.

Definition upper_ascii (a : ascii) : ascii :=
  let n := nat_of_ascii a in
  if ((97 <=? n) && (n <=? 122))%nat then ascii_of_nat (n - 32) else a.

Definition lower_ascii (a : ascii) : ascii :=
  let n := nat_of_ascii a in
  if ((65 <=? n) && (n <=? 90))%nat then ascii_of_nat (n + 32) else a.

Fixpoint map_string (f : ascii -> ascii) (s : string) : string :=
  match s with
  | EmptyString => EmptyString
  | String a rest => String (f a) (map_string f rest)
  end.

(** [s.upper()] and [s.lower()] *)
Definition upper : string -> string := map_string upper_ascii.
Definition lower : string -> string := map_string lower_ascii.

(** The line feed of ["\n"] and the double quote. *)
Definition nl : string := String (ascii_of_nat 10) EmptyString.
Definition dq : string := String (ascii_of_nat 34) EmptyString.

End PyStr.

Import PyStr.

(** ** [BrowserAgent.navigate]: the scheme default

    <<
    if not url.startswith(('http://', 'https://')):
        url = f'https://{url}'
    >> *)
Definition normalize_url (url : string) : string :=
  if startswith "http://" url || startswith "https://" url
  then url
  else "https://" ++ url.



(** ** The data model *)

(** Python exceptions, all of them caught by [except Exception]: the class
    and the text of [str(e)].  [MarkupError] is the error of the console
    when a text closes a tag that is not open. *)
Inductive exn_class :=
| Exception | ValueError | TypeError | AttributeError | RuntimeError | KeyError
| JSONDecodeError | TimeoutError | PlaywrightError | MarkupError | RecursionError.

Record exn := mk_exn { exn_type : exn_class; exn_str : string }.

Definition exn_class_eqb (a b : exn_class) : bool :=
  match a, b with
  | Exception, Exception | ValueError, ValueError | TypeError, TypeError
  | AttributeError, AttributeError | RuntimeError, RuntimeError
  | KeyError, KeyError
  | JSONDecodeError, JSONDecodeError | TimeoutError, TimeoutError
  | PlaywrightError, PlaywrightError | MarkupError, MarkupError
  | RecursionError, RecursionError => true
  | _, _ => false
  end.

(** What a method of the agent does: it returns, it raises, or it never
    comes back ([Hangs]: the recursion of [execute] when the model never
    answers DONE). *)
Inductive outcome (A : Type) :=
| Returns (a : A)
| Raises (e : exn)
| Hangs.
Arguments Returns {A} a.
Arguments Raises {A} e.
Arguments Hangs {A}.

(** What a call on a collaborator comes back with: every wait of the
    browser engine and every request has its own timeout. *)
Inductive answer (A : Type) :=
| Ok (a : A)
| Fails (e : exn).
Arguments Ok {A} a.
Arguments Fails {A} e.

Definition await {A} (r : answer A) : outcome A :=
  match r with
  | Ok a => Returns a
  | Fails e => Raises e
  end.

(** Values produced by [json.loads]. *)
#[warnings="-register-all"]
Inductive pyval :=
| PNone
| PBool (b : bool)
| PInt (z : Z)
| PFloat (literal : string)
| PStr (s : string)
| PList (items : list pyval)
| PDict (items : list (string * pyval)).

(** A chat message [{"role": ..., "content": ...}]. *)
Record message := mk_message { role : string; content : string }.

(** Objects of the browser engine, the completion client and the operating
    system are known by a handle. *)
Definition handle := nat.

(** The calls the agent makes on its collaborators, with their arguments. *)
Inductive Call :=
| PageGoto (p : handle) (url : string) (timeout : Z) (wait_until : option string)
| PageEvaluate (p : handle) (js : string)
| PageWaitForLoadState (p : handle) (state : string) (timeout : option Z)
| PageWaitForSelector (p : handle) (selector state : string) (timeout : option Z)
| PageQuerySelector (p : handle) (selector : string)
| PageWaitForTimeout (p : handle) (ms : Z)
| PageClose (p : handle)
| KeyboardPress (p : handle) (key : string)
| ContextNewPage (c : handle)
| ElementWaitForElementState (e : handle) (state : string)
| ElementScrollIntoViewIfNeeded (e : handle)
| ElementClick (e : handle) (delay : option Z)
| ElementType (e : handle) (text : string) (delay : Z)
| ElementIsVisible (e : handle)
| ElementIsEnabled (e : handle)
| ElementBoundingBox (e : handle)
| ElementTextContent (e : handle)
| GetCompletion (l : handle) (messages : list message)
| BrowserClose (b : handle)
| PlaywrightStop (pw : handle)
| ProcessKill (pr : handle).

(** The collaborators: each answer may depend on every call made so far.
    [answer_ref] serves the calls that yield an object or [None] (goto,
    wait_for_selector, query_selector, new_page), [answer_unit] those whose
    value the agent does not use, [answer_text] those whose value it uses
    as text (the completion, the text content, and the bounding box, which
    is only printed); [url_of] is the attribute [page.url].  [console] is
    [console.print] of the rich library: it shows the text it is given or
    raises. *)
Record Env := mk_Env {
  answer_unit : list Call -> Call -> answer unit;
  answer_bool : list Call -> Call -> answer bool;
  answer_text : list Call -> Call -> answer string;
  answer_ref : list Call -> Call -> answer (option handle);
  url_of : list Call -> handle -> string;
  console : string -> answer unit
}.

(** One entry of [action_history], a dict with string values. *)
Definition record := list (string * string).

(** The attributes of a [BrowserAgent], and the calls made so far.
    [context] and [chrome_process] are [None] while the attribute does not
    exist ([__init__] does not create them). *)
Record State := mk_State {
  browser : option handle;
  playwright : option handle;
  page : option handle;
  context : option handle;
  chrome_process : option handle;
  llm : option handle;
  action_history : list record;
  debug : bool;
  trace : list Call
}.

(** [self.page = p] *)
Definition with_page (p : option handle) (st : State) : State :=
  mk_State (browser st) (playwright st) p (context st) (chrome_process st)
           (llm st) (action_history st) (debug st) (trace st).

(** [self.action_history.append(r)] *)
Definition recorded (r : record) (st : State) : State :=
  mk_State (browser st) (playwright st) (page st) (context st)
           (chrome_process st) (llm st) (action_history st ++ [r]) (debug st)
           (trace st).

(** The calls [calls] have been made. *)
Definition made (calls : list Call) (st : State) : State :=
  mk_State (browser st) (playwright st) (page st) (context st)
           (chrome_process st) (llm st) (action_history st) (debug st)
           (trace st ++ calls).

Definition log (c : Call) (st : State) : State := made [c] st.

(** What the agent takes from the Python interpreter and its [json]
    module.  [json_loads] gives the parsed value or the exception raised
    ([JSONDecodeError], or another one such as [RecursionError]);
    [json_dumps] is [json.dumps(v, indent=2)] and [py_repr] is [repr].
    [call_error] is the text of the [TypeError] of a call whose keyword
    arguments do not fit the parameters of the method.  [other_values] is
    what a method does when a keyword argument is no string: the value
    reaches the browser library as it is, and what comes of it is not
    modelled beyond the outcome and the calls made. *)
Record Python := mk_Python {
  json_loads : string -> pyval + exn;
  json_dumps : pyval -> string;
  py_repr : pyval -> string;
  call_error : string -> pyval -> string;
  other_values : string -> pyval -> State -> outcome string * list Call
}.

Definition SYSTEM_PROMPT : string :=
  "You are a browser automation expert. Your task is to control a web browser to accomplish user objectives." ++ nl ++
  "You have access to these tools:" ++ nl ++
  nl ++
  "- find_element: Find an element on the page using various strategies" ++ nl ++
  "- navigate: Navigate to a specified URL" ++ nl ++
  "- click: Click an element on the page using CSS selector" ++ nl ++
  "- type: Type text into an input field using CSS selector" ++ nl ++
  "- get_text: Get text content from an element using CSS selector" ++ nl ++
  nl ++
  "For complex tasks, break them down into individual steps. For example:" ++ nl ++
  "1. To search on Google:" ++ nl ++
  "   - First navigate to Google" ++ nl ++
  "   - Find the search box" ++ nl ++
  "   - Type in the search query" ++ nl ++
  "   - Find and click the search button" ++ nl ++
  nl ++
  "IMPORTANT: You must ALWAYS respond with ONLY a valid JSON object and nothing else. No natural language responses." ++ nl ++
  "The JSON must follow this exact format:" ++ nl ++
  "{" ++ nl ++
  "    " ++ dq ++ "tool" ++ dq ++ ": " ++ dq ++ "tool_name" ++ dq ++ "," ++ nl ++
  "    " ++ dq ++ "args" ++ dq ++ ": {" ++ nl ++
  "        " ++ dq ++ "arg1" ++ dq ++ ": " ++ dq ++ "value1" ++ dq ++ "," ++ nl ++
  "        ..." ++ nl ++
  "    }" ++ nl ++
  "}" ++ nl ++
  nl ++
  "Examples:" ++ nl ++
  "1. To find a search box:" ++ nl ++
  "{" ++ nl ++
  "    " ++ dq ++ "tool" ++ dq ++ ": " ++ dq ++ "find_element" ++ dq ++ "," ++ nl ++
  "    " ++ dq ++ "args" ++ dq ++ ": {" ++ nl ++
  "        " ++ dq ++ "description" ++ dq ++ ": " ++ dq ++ "search input box" ++ dq ++ nl ++
  "    }" ++ nl ++
  "}" ++ nl ++
  nl ++
  "2. To type in a found element:" ++ nl ++
  "{" ++ nl ++
  "    " ++ dq ++ "tool" ++ dq ++ ": " ++ dq ++ "type" ++ dq ++ "," ++ nl ++
  "    " ++ dq ++ "args" ++ dq ++ ": {" ++ nl ++
  "        " ++ dq ++ "selector" ++ dq ++ ": " ++ dq ++ "SELECTOR_FROM_FIND_ELEMENT" ++ dq ++ "," ++ nl ++
  "        " ++ dq ++ "text" ++ dq ++ ": " ++ dq ++ "search query" ++ dq ++ nl ++
  "    }" ++ nl ++
  "}" ++ nl ++
  nl ++
  "Remember:" ++ nl ++
  "1. Respond with ONLY the JSON object, no other text" ++ nl ++
  "2. Execute one action at a time" ++ nl ++
  "3. Make sure the JSON is properly formatted" ++ nl ++
  "4. Use find_element to locate elements before interacting with them" ++ nl.

(** ** The monad of the agent's methods

    A method runs from a state to an outcome and a state; what it did to
    [self] and to the browser before raising stays done. *)

Definition M (A : Type) : Type := State -> outcome A * State.

Definition ret {A} (a : A) : M A := fun st => (Returns a, st).

Definition raise {A} (e : exn) : M A := fun st => (Raises e, st).

Definition hang {A} : M A := fun st => (Hangs, st).

Definition bind {A B} (m : M A) (k : A -> M B) : M B :=
  fun st =>
    match m st with
    | (Returns a, st') => k a st'
    | (Raises e, st') => (Raises e, st')
    | (Hangs, st') => (Hangs, st')
    end.

(** [try: body except Exception as e: handler] *)
Definition try_except {A} (body : M A) (handler : exn -> M A) : M A :=
  fun st =>
    match body st with
    | (Raises e, st') => handler e st'
    | r => r
    end.

Declare Scope agent_scope.
Delimit Scope agent_scope with agent.
Notation "x <- c1 ;; c2" := (bind c1 (fun x => c2))
  (at level 61, c1 at next level, right associativity) : agent_scope.
Notation "c1 ;; c2" := (bind c1 (fun _ => c2))
  (at level 61, right associativity) : agent_scope.
Local Open Scope agent_scope.

Definition get {A} (field : State -> A) : M A := fun st => (Returns (field st), st).

Definition set_page (p : option handle) : M unit :=
  fun st => (Returns tt, with_page p st).

Definition append_history (r : record) : M unit :=
  fun st => (Returns tt, recorded r st).

(** Reading a method or attribute of [self.page] when it is [None]. *)
Definition none_has_no (attr : string) : exn :=
  mk_exn AttributeError ("'NoneType' object has no attribute '" ++ attr ++ "'").

(** Reading an attribute of [self] that was never assigned. *)
Definition agent_has_no (attr : string) : exn :=
  mk_exn AttributeError ("'BrowserAgent' object has no attribute '" ++ attr ++ "'").

Definition the_page (attr : string) : M handle :=
  fun st =>
    match page st with
    | Some p => (Returns p, st)
    | None => (Raises (none_has_no attr), st)
    end.

Definition the_context : M handle :=
  fun st =>
    match context st with
    | Some c => (Returns c, st)
    | None => (Raises (agent_has_no "context"), st)
    end.

(** ** Console output

    <<
    colors = {"info": "cyan", "success": "green", "warning": "yellow",
              "error": "red", "ai": "magenta"}
    console.print(f"[{colors.get(level, 'white')}]{message}[/{colors.get(level, 'white')}]")
    >> *)

Definition colors (level : string) : string :=
  if (level =? "info")%string then "cyan"
  else if (level =? "success")%string then "green"
  else if (level =? "warning")%string then "yellow"
  else if (level =? "error")%string then "red"
  else if (level =? "ai")%string then "magenta"
  else "white".

(** [f"[{style}]{message}[/{style}]"] *)
Definition markup (style message : string) : string :=
  "[" ++ style ++ "]" ++ message ++ "[/" ++ style ++ "]".

(** [f"{b}"] for a bool *)
Definition py_bool (b : bool) : string := if b then "True" else "False".

Section Agent.

Variable env : Env.
Variable py : Python.

(** [str(v)] *)
Definition py_str (v : pyval) : string :=
  match v with
  | PStr s => s
  | _ => py_repr py v
  end.

(** [console.print(text)] *)
Definition console_print (text : string) : M unit :=
  fun st => (await (console env text), st).

(** [self.debug_print(message, level)] *)
Definition debug_print (message level : string) : M unit :=
  enabled <- get debug ;;
  if enabled then console_print (markup (colors level) message) else ret tt.

(** *** Calls on the collaborators *)

Definition call_unit (c : Call) : M unit :=
  fun st => (await (answer_unit env (trace st) c), log c st).

Definition call_bool (c : Call) : M bool :=
  fun st => (await (answer_bool env (trace st) c), log c st).

Definition call_text (c : Call) : M string :=
  fun st => (await (answer_text env (trace st) c), log c st).

Definition call_ref (c : Call) : M (option handle) :=
  fun st => (await (answer_ref env (trace st) c), log c st).

Definition page_goto (url : string) (timeout : Z) (wait_until : option string)
  : M (option handle) :=
  p <- the_page "goto" ;; call_ref (PageGoto p url timeout wait_until).

Definition page_evaluate (js : string) : M unit :=
  p <- the_page "evaluate" ;; call_unit (PageEvaluate p js).

Definition page_wait_for_load_state (state : string) (timeout : option Z) : M unit :=
  p <- the_page "wait_for_load_state" ;; call_unit (PageWaitForLoadState p state timeout).

Definition page_wait_for_selector (selector state : string) (timeout : option Z)
  : M (option handle) :=
  p <- the_page "wait_for_selector" ;;
  call_ref (PageWaitForSelector p selector state timeout).

Definition page_query_selector (selector : string) : M (option handle) :=
  p <- the_page "query_selector" ;; call_ref (PageQuerySelector p selector).

Definition page_wait_for_timeout (ms : Z) : M unit :=
  p <- the_page "wait_for_timeout" ;; call_unit (PageWaitForTimeout p ms).

Definition page_close : M unit :=
  p <- the_page "close" ;; call_unit (PageClose p).

Definition keyboard_press (key : string) : M unit :=
  p <- the_page "keyboard" ;; call_unit (KeyboardPress p key).

Definition context_new_page : M (option handle) :=
  c <- the_context ;; call_ref (ContextNewPage c).

(** [self.page.url] *)
Definition page_url : M string :=
  p <- the_page "url" ;; fun st => (Returns (url_of env (trace st) p), st).

(** *** [BrowserAgent.navigate] *)

Definition navigation_error (url : string) (e : exn) : string :=
  "‚ùå Error navigating to " ++ url ++ ": " ++ exn_str e.

(** The body of the outer [try]: the first attempt with its read-back. *)
Definition navigate_first (url : string) : M string :=
  response <- page_goto url 30000 None ;;
  match response with
  | None =>
      debug_print "‚ö†Ô∏è No response from navigation, trying alternative approach..."
                  "info" ;;
      page_evaluate ("window.location.href = '" ++ url ++ "'") ;;
      page_wait_for_load_state "domcontentloaded" (Some 30000)
  | Some _ => ret tt
  end ;;
  try_except (page_wait_for_load_state "domcontentloaded" (Some 30000))
    (fun e => debug_print ("‚ö†Ô∏è DOM content load timeout: " ++ exn_str e) "info") ;;
  try_except (page_wait_for_load_state "networkidle" (Some 30000))
    (fun e => debug_print ("‚ö†Ô∏è Network idle timeout: " ++ exn_str e) "info") ;;
  current_url <- page_url ;;
  if (current_url =? "")%string || (current_url =? "about:blank")%string
  then raise (mk_exn Exception "Navigation failed - page is blank")
  else
    debug_print ("‚úÖ Successfully navigated to " ++ current_url) "info" ;;
    append_history [("action", "navigate"); ("url", url)] ;;
    ret ("Navigated to " ++ current_url).

(** The body of the inner [try]: one more attempt on a fresh page. *)
Definition navigate_retry (url : string) : M string :=
  debug_print "üîÑ Attempting navigation with fresh page..." "info" ;;
  page_close ;;
  fresh <- context_new_page ;;
  set_page fresh ;;
  page_goto url 30000 (Some "domcontentloaded") ;;
  ret ("Navigated to " ++ url ++ " (with fresh page)").

(** The text of the exception raised when the recovery fails too. *)
Definition both_failed (url : string) (e retry_error : exn) : exn :=
  mk_exn Exception
    (navigation_error url e ++ nl ++ "Retry also failed: " ++ exn_str retry_error).

Definition navigate (url : string) : M string :=
  debug_print ("üåê Navigating to " ++ url ++ "...") "info" ;;
  let url := normalize_url url in
  try_except (navigate_first url)
    (fun e =>
       let error_msg := navigation_error url e in
       debug_print error_msg "error" ;;
       try_except (navigate_retry url)
         (fun retry_error => raise (both_failed url e retry_error))).

(** *** [BrowserAgent.click] *)

Definition click (selector : string) : M string :=
  console_print (markup "cyan" ("Clicking element " ++ selector ++ "...")) ;;
  try_except
    (element <- page_wait_for_selector selector "visible" (Some 5000) ;;
     match element with
     | None => raise (mk_exn ValueError ("Element not found: " ++ selector))
     | Some element =>
         call_unit (ElementWaitForElementState element "stable") ;;
         call_unit (ElementScrollIntoViewIfNeeded element) ;;
         call_unit (ElementClick element (Some 100)) ;;
         append_history [("action", "click"); ("selector", selector)] ;;
         ret ("Clicked element matching " ++ selector)
     end)
    (fun e =>
       console_print (markup "red" ("Error clicking element: " ++ exn_str e)) ;;
       raise e).

(** *** [BrowserAgent.type] *)

Definition button_selectors : list string :=
  [ "input[name='btnK']";
    "input[value='Google Search']";
    ".gNO89b";
    "[aria-label='Google Search']" ].

(** The [for btn_selector in button_selectors] loop: stop at the first
    button that could be clicked, go on after any exception (that of the
    debug line included, which is inside the [try]). *)
Fixpoint click_search_button (selectors : list string) : M unit :=
  match selectors with
  | [] => ret tt
  | btn_selector :: rest =>
      clicked <-
        try_except
          (button <- page_wait_for_selector btn_selector "visible" (Some 2000) ;;
           match button with
           | Some button =>
               call_unit (ElementClick button None) ;;
               page_wait_for_load_state "domcontentloaded" None ;;
               debug_print "‚úÖ Search submitted via button" "info" ;;
               ret true
           | None => ret false
           end)
          (fun _ => ret false) ;;
      if clicked then ret tt else click_search_button rest
  end.

(** The test on the url read after the Enter key. *)
Definition still_on_main_page (current_url : string) : bool :=
  contains "google.com" current_url && negb (contains "search" current_url).

(** The inner [try] of [type]: wait for the navigation started by Enter. *)
Definition submit_fallback : M unit :=
  try_except
    (page_wait_for_load_state "domcontentloaded" (Some 5000) ;;
     debug_print "‚úÖ Navigation started" "info" ;;
     current_url <- page_url ;;
     if still_on_main_page current_url
     then
       debug_print "‚ö†Ô∏è Still on main page, trying search button..." "info" ;;
       click_search_button button_selectors
     else ret tt)
    (fun e => debug_print ("‚ö†Ô∏è Navigation warning: " ++ exn_str e) "info").

(** Everything inside the [try] up to and including the Enter key and the
    pause after it. *)
Definition type_and_press_enter (selector text : string) : M unit :=
  element <- page_wait_for_selector selector "visible" (Some 10000) ;;
  match element with
  | None => raise (mk_exn ValueError ("Element not found: " ++ selector))
  | Some element =>
      call_unit (ElementClick element None) ;;
      page_wait_for_timeout 200 ;;
      keyboard_press "Control+A" ;;
      page_wait_for_timeout 100 ;;
      keyboard_press "Backspace" ;;
      page_wait_for_timeout 200 ;;
      call_unit (ElementType element text 50) ;;
      page_wait_for_timeout 500 ;;
      keyboard_press "Enter" ;;
      page_wait_for_timeout 1000
  end.

(** The line [type] starts with. *)
Definition typing_line (selector text : string) : string :=
  "‚å®Ô∏è Typing '" ++ text ++ "' into " ++ selector.

Definition type (selector text : string) : M string :=
  debug_print (typing_line selector text) "info" ;;
  try_except
    (type_and_press_enter selector text ;;
     submit_fallback ;;
     append_history [("action", "type"); ("selector", selector); ("text", text)] ;;
     ret ("Typed '" ++ text ++ "' into " ++ selector ++ " and submitted"))
    (fun e =>
       debug_print ("‚ùå Error typing text: " ++ exn_str e) "error" ;;
       raise e).

(** *** [BrowserAgent.get_text] *)

Definition get_text (selector : string) : M string :=
  console_print (markup "cyan" ("Getting text from " ++ selector ++ "...")) ;;
  page_wait_for_selector selector "visible" None ;;
  element <- page_query_selector selector ;;
  match element with
  | Some element =>
      text <- call_text (ElementTextContent element) ;;
      append_history [("action", "get_text"); ("selector", selector); ("result", text)] ;;
      ret text
  | None => ret ("No element found matching " ++ selector)
  end.

(** *** [BrowserAgent.find_element] *)

Definition search_selectors : list string :=
  [ "[name='q']";
    "#searchbox_input";
    "[data-testid='searchbox_input']";
    "[type='text']";
    "[type='search']";
    "[role='searchbox']";
    "input[placeholder*='search']";
    "input[placeholder*='Search']" ].

Definition button_candidates : list string :=
  [ "[type='submit']";
    "button[type='submit']";
    "[aria-label*='search' i]";
    "[aria-label*='Search' i]";
    "button[aria-label*='search' i]";
    "button[aria-label*='Search' i]" ].

(** [selector_maps[selector_type]] *)
Definition selector_maps (selector_type : string) : list string :=
  if (selector_type =? "search")%string then search_selectors else button_candidates.

(** ["search" if any(term in description.lower() for term in [...]) else "button"] *)
Definition selector_type (description : string) : string :=
  if existsb (fun term => contains term (lower description)) ["search"; "input"; "text"]
  then "search" else "button".

(** The body of [for selector in selectors]: [true] when the loop returns
    this selector, [false] when it goes on to the next one.  The debug
    line of the handler is outside the [try]: when it raises, so does
    [find_element]. *)
Definition try_selector (selector : string) : M bool :=
  try_except
    (debug_print ("üîç Trying selector: " ++ selector) "info" ;;
     element <- page_wait_for_selector selector "attached" (Some 5000) ;;
     match element with
     | None =>
         debug_print ("‚ùå Selector " ++ selector ++ " not found in DOM") "warning" ;;
         ret false
     | Some element =>
         is_visible <- call_bool (ElementIsVisible element) ;;
         debug_print ("üëÅÔ∏è Selector " ++ selector ++ " visible: " ++ py_bool is_visible)
                     "info" ;;
         if negb is_visible then ret false
         else
           is_enabled <- call_bool (ElementIsEnabled element) ;;
           debug_print ("üîì Selector " ++ selector ++ " enabled: " ++ py_bool is_enabled)
                       "info" ;;
           if negb is_enabled then ret false
           else
             box <- call_text (ElementBoundingBox element) ;;
             debug_print ("üìê Element box: " ++ box) "info" ;;
             debug_print ("‚úÖ Found interactive element using selector: " ++ selector)
                         "success" ;;
             ret true
     end)
    (fun e =>
       debug_print ("‚ùå Error trying selector " ++ selector ++ ": " ++ exn_str e)
                   "error" ;;
       ret false).

Fixpoint try_selectors (description : string) (selectors : list string) : M string :=
  match selectors with
  | [] =>
      raise (mk_exn ValueError
               ("Could not find interactive element matching description: "
                ++ description))
  | selector :: rest =>
      found <- try_selector selector ;;
      if found then ret selector else try_selectors description rest
  end.

(** [repr(s)] for a string without backslash, control character or both
    kinds of quote, as the candidates are. *)
Definition repr_str (s : string) : string :=
  if contains "'" s && negb (contains dq s) then dq ++ s ++ dq else "'" ++ s ++ "'".

(** [str(l)] for a list of such strings. *)
Definition list_str (l : list string) : string :=
  "[" ++ String.concat ", " (map repr_str l) ++ "]".

(** The line that lists the candidates. *)
Definition candidates_line (description : string) : string :=
  "üéØ Using selectors for type '" ++ selector_type description ++ "': "
  ++ list_str (selector_maps (selector_type description)).

Definition find_element (description : string) : M string :=
  debug_print ("üîç Finding element: " ++ description) "info" ;;
  current_url <- page_url ;;
  debug_print ("üìÑ Current URL: " ++ current_url) "info" ;;
  debug_print "‚è≥ Waiting for page to be stable..." "info" ;;
  try_except
    (page_wait_for_load_state "domcontentloaded" None ;;
     page_wait_for_load_state "networkidle" None)
    (fun e =>
       debug_print ("‚ö†Ô∏è Warning: Page load state error: " ++ exn_str e) "warning") ;;
  debug_print (candidates_line description) "info" ;;
  try_selectors description (selector_maps (selector_type description)).

(** *** [BrowserAgent.execute] *)

(** The keys of [self.tools]. *)
Definition tools : list string :=
  ["navigate"; "click"; "type"; "get_text"; "find_element"].

Fixpoint lookup (key : string) (d : list (string * pyval)) : option pyval :=
  match d with
  | [] => None
  | (k, v) :: rest => if (k =? key)%string then Some v else lookup key rest
  end.

(** Lists and dicts cannot be looked up in a dict. *)
Definition unhashable (v : pyval) : option string :=
  match v with
  | PList _ => Some "list"
  | PDict _ => Some "dict"
  | _ => None
  end.

(** Python [s[json_start:json_end]] between the first opening and the last
    closing brace; [None] when the test of the [if] fails. *)
Definition extract_json (response_text : string) : option string :=
  let json_start := find "{"%char response_text in
  let json_end := rfind "}"%char response_text + 1 in
  if (0 <=? json_start) && (json_start <? json_end)
  then Some (slice response_text json_start json_end)
  else None.

Definition parse_action (response_text : string) : M pyval :=
  match extract_json response_text with
  | Some json_str =>
      match json_loads py json_str with
      | inl action => ret action
      | inr e => raise e
      end
  | None => raise (mk_exn ValueError "No JSON object found in response")
  end.

(** The two [if ... raise ValueError] of the validation; the result is the
    tool name and [action["args"]]. *)
Definition validate (action : pyval) : M (string * pyval) :=
  match action with
  | PDict d =>
      match lookup "tool" d, lookup "args" d with
      | Some tool, Some args =>
          match unhashable tool with
          | Some ty => raise (mk_exn TypeError ("unhashable type: '" ++ ty ++ "'"))
          | None =>
              match tool with
              | PStr name =>
                  if existsb (String.eqb name) tools then ret (name, args)
                  else raise (mk_exn ValueError ("Unknown tool: " ++ py_str tool))
              | _ => raise (mk_exn ValueError ("Unknown tool: " ++ py_str tool))
              end
          end
      | _, _ => raise (mk_exn ValueError "Invalid action format")
      end
  | _ => raise (mk_exn ValueError "Invalid action format")
  end.

(** The parameters of the methods in [self.tools]. *)
Definition parameters (tool : string) : list string :=
  if (tool =? "navigate")%string then ["url"]
  else if (tool =? "type")%string then ["selector"; "text"]
  else if (tool =? "find_element")%string then ["description"]
  else ["selector"].

Fixpoint values_of (params : list string) (d : list (string * pyval))
  : option (list pyval) :=
  match params with
  | [] => Some []
  | param :: rest =>
      match lookup param d, values_of rest d with
      | Some v, Some vs => Some (v :: vs)
      | _, _ => None
      end
  end.

(** The values the keyword arguments [d] give to [params]: there are none
    when a key is no parameter or a parameter has no key. *)
Definition bind_keywords (params : list string) (d : list (string * pyval))
  : option (list pyval) :=
  if forallb (fun kv => existsb (String.eqb (fst kv)) params) d
  then values_of params d
  else None.

(** The method of [tool] on string arguments. *)
Definition run_tool (tool : string) (values : list pyval) : option (M string) :=
  match values with
  | [PStr a] =>
      if (tool =? "navigate")%string then Some (navigate a)
      else if (tool =? "click")%string then Some (click a)
      else if (tool =? "get_text")%string then Some (get_text a)
      else if (tool =? "find_element")%string then Some (find_element a)
      else None
  | [PStr a; PStr b] =>
      if (tool =? "type")%string then Some (type a b) else None
  | _ => None
  end.

(** [self.tools[tool]] called with [args] unpacked as keyword arguments:
    the lookup of the method, then the call.  Arguments that do not fit
    the parameters are a [TypeError] raised before the method starts. *)
Definition call_tool (tool : string) (args : pyval) : M string :=
  if negb (existsb (String.eqb tool) tools)
  then raise (mk_exn KeyError (repr_str tool))
  else
    match args with
    | PDict d =>
        match bind_keywords (parameters tool) d with
        | Some values =>
            match run_tool tool values with
            | Some method => method
            | None =>
                fun st =>
                  (fst (other_values py tool args st),
                   made (snd (other_values py tool args st)) st)
            end
        | None => raise (mk_exn TypeError (call_error py tool args))
        end
    | _ => raise (mk_exn TypeError (call_error py tool args))
    end.

(** [f"Current page: {current_url}\nCommand: {command}"] *)
Definition context_text (current_url command : string) : string :=
  "Current page: " ++ current_url ++ nl ++ "Command: " ++ command.

(** The two messages every proposal request is made of. *)
Definition proposal_messages (current_url command : string) : list message :=
  [ mk_message "system" SYSTEM_PROMPT;
    mk_message "user" (context_text current_url command) ].

(** The two messages appended for the continuation check. *)
Definition continuation_messages (action : pyval) (result current_url command : string)
  : list message :=
  [ mk_message "assistant" (py_str action);
    mk_message "user"
      ("Previous action result: " ++ result ++ nl ++
       "Current URL: " ++ current_url ++ nl ++
       "Are we done with the command: " ++ command ++
       "? If not, what's the next step? Respond with a new action JSON or 'DONE' if complete.") ].

(** [except json.JSONDecodeError as e: ... raise ValueError(...)] followed
    by [except Exception as e: ... raise]. *)
Definition on_processing_error (response_text : string) (e : exn) : M string :=
  if exn_class_eqb (exn_type e) JSONDecodeError
  then
    debug_print ("‚ùå Failed to parse LLM response as JSON: " ++ response_text)
                "error" ;;
    raise (mk_exn ValueError ("Invalid JSON response from LLM: " ++ exn_str e))
  else
    debug_print ("‚ùå Error processing LLM response: " ++ exn_str e) "error" ;;
    raise e.

(** The outer [except Exception as e: ... raise]. *)
Definition on_error (e : exn) : M string :=
  debug_print ("‚ùå Error executing command: " ++ exn_str e) "error" ;;
  raise e.

(** The inner [try] of [execute] up to the reply to the continuation
    check: parse and validate the proposal, run the action, wait for the
    page, ask the model whether the command is done.  The result is the
    text the action returned and the text the model replied. *)
Definition act_and_ask (client : handle) (command : string) (messages : list message)
  (response_text : string) : M (string * string) :=
  action <- parse_action response_text ;;
  debug_print ("üéØ Parsed Action: " ++ json_dumps py action) "info" ;;
  proposal <- validate action ;;
  result <- call_tool (fst proposal) (snd proposal) ;;
  debug_print ("‚úÖ Action Result: " ++ result) "success" ;;
  debug_print "‚è≥ Waiting for page to stabilize..." "info" ;;
  page_wait_for_load_state "networkidle" None ;;
  debug_print "‚úÖ Page stable" "success" ;;
  current_url <- page_url ;;
  let messages :=
    (messages ++ continuation_messages action result current_url command)%list in
  debug_print "ü§î Checking if more steps needed..." "ai" ;;
  next_response <- call_text (GetCompletion client messages) ;;
  debug_print ("üí≠ AI Response: " ++ next_response) "ai" ;;
  ret (result, next_response).

(** ["DONE" not in next_response.upper()] *)
Definition more_steps_needed (next_response : string) : bool :=
  negb (contains "DONE" (upper next_response)).

(** What follows the reply to the continuation check; [again] is the call
    of [execute] on the same command. *)
Definition conclude (again : M string) (checked : string * string) : M string :=
  if more_steps_needed (snd checked)
  then debug_print "‚è≠Ô∏è More steps needed, continuing..." "info" ;; again
  else debug_print "‚ú® Command completed successfully!" "success" ;; ret (fst checked).

(** [execute] calls itself with no bound on the depth; [fuel] bounds the
    number of rounds, and a run that needs more [Hangs]. *)
Fixpoint execute (fuel : nat) (command : string) : M string :=
  match fuel with
  | O => hang
  | S fuel' =>
      client <- get llm ;;
      match client with
      | None => raise (mk_exn RuntimeError "Agent not initialized. Call setup() first.")
      | Some client =>
          debug_print ("ü§ñ Executing command: " ++ command) "ai" ;;
          try_except
            (pg <- get page ;;
             current_url <- match pg with
                            | Some _ => page_url
                            | None => ret "No page loaded"
                            end ;;
             debug_print "üß† AI Context:" "ai" ;;
             debug_print (context_text current_url command) "ai" ;;
             let messages := proposal_messages current_url command in
             debug_print "ü§î Thinking..." "ai" ;;
             response_text <- call_text (GetCompletion client messages) ;;
             debug_print ("üí≠ AI Response: " ++ response_text) "ai" ;;
             try_except
               (checked <- act_and_ask client command messages response_text ;;
                conclude (execute fuel' command) checked)
               (on_processing_error response_text))
            on_error
      end
  end.

(** *** [BrowserAgent.close]

    The three releases; the line printed after them is a fixed text. *)

Definition close : M unit :=
  b <- get browser ;;
  match b with Some b => call_unit (BrowserClose b) | None => ret tt end ;;
  pw <- get playwright ;;
  match pw with Some pw => call_unit (PlaywrightStop pw) | None => ret tt end ;;
  pr <- get chrome_process ;;
  match pr with Some pr => call_unit (ProcessKill pr) | None => ret tt end.

End Agent.

(** ** Vocabulary of the statements *)

(** The character [c] occurs in [s]. *)
Fixpoint occurs (c : ascii) (s : string) : Prop :=
  match s with
  | EmptyString => False
  | String a rest => a = c \/ occurs c rest
  end.

(** The text holds the two characters a closing tag of the console's markup
    starts with. *)
Definition closes_tag (text : string) : bool := contains "[/" text.

(** The last character of [a] is an opening bracket. *)
Fixpoint ends_bracket (a : string) : bool :=
  match a with
  | EmptyString => false
  | String c EmptyString => Ascii.eqb c "["
  | String _ rest => ends_bracket rest
  end.

(** With debug output on, [text] is printed: it has to close no tag. *)
Definition printable (st : State) (text : string) : Prop :=
  debug st = true -> closes_tag text = false.

(** The styles the agent prints in. *)
Definition styles : list string :=
  ["cyan"; "green"; "yellow"; "red"; "magenta"; "white"].

(** The console shows every line in which the closing tag of its style is
    the only closing tag, as the markup of rich does. *)
Definition renders_markup (env : Env) : Prop :=
  forall style message,
    In style styles -> closes_tag message = false ->
    console env (markup style message) = Ok tt.

(** No text the browser hands over closes a tag: the urls, the texts of the
    errors and the bounding boxes. *)
Definition plain_page (env : Env) : Prop :=
  (forall tr p, closes_tag (url_of env tr p) = false) /\
  (forall tr c e, answer_unit env tr c = Fails e -> closes_tag (exn_str e) = false) /\
  (forall tr c e, answer_bool env tr c = Fails e -> closes_tag (exn_str e) = false) /\
  (forall tr c e, answer_ref env tr c = Fails e -> closes_tag (exn_str e) = false) /\
  (forall tr c e, answer_text env tr c = Fails e -> closes_tag (exn_str e) = false) /\
  (forall tr el box,
      answer_text env tr (ElementBoundingBox el) = Ok box -> closes_tag box = false).

(** The url the agent reports to the model. *)
Definition current_url_of (env : Env) (st : State) : string :=
  match page st with
  | Some p => url_of env (trace st) p
  | None => "No page loaded"
  end.

(** The load of the url on the fresh page. *)
Definition retry_goto (fresh : handle) (url : string) : Call :=
  PageGoto fresh url 30000 (Some "domcontentloaded").

(** The releases [close] has to make, in its order. *)
Definition release_calls (st : State) : list Call :=
  (match browser st with Some b => [BrowserClose b] | None => [] end ++
   match playwright st with Some pw => [PlaywrightStop pw] | None => [] end ++
   match chrome_process st with Some pr => [ProcessKill pr] | None => [] end)%list.

(** The waits for a submit button in [type] are the only waits for a
    selector with a timeout of 2000 ms. *)
Definition is_button_wait (c : Call) : bool :=
  match c with
  | PageWaitForSelector _ _ _ (Some t) => t =? 2000
  | _ => false
  end.

(** The calls of [find_element] on the candidate [selector] of page [p]. *)
Definition attached_wait (p : handle) (selector : string) : Call :=
  PageWaitForSelector p selector "attached" (Some 5000).

(** The three checks of [find_element] pass for [selector] on page [p] when
    the calls made before are [tr]. *)
Definition interactive (env : Env) (p : handle) (tr : list Call) (selector : string)
  : Prop :=
  exists el,
    answer_ref env tr (attached_wait p selector) = Ok (Some el) /\
    answer_bool env (tr ++ [attached_wait p selector]) (ElementIsVisible el)
    = Ok true /\
    answer_bool env (tr ++ [attached_wait p selector; ElementIsVisible el])
      (ElementIsEnabled el) = Ok true.

(** The three checks pass and the bounding box of the element can be read. *)
Definition measurable (env : Env) (p : handle) (tr : list Call) (selector : string)
  : Prop :=
  exists el box,
    answer_ref env tr (attached_wait p selector) = Ok (Some el) /\
    answer_bool env (tr ++ [attached_wait p selector]) (ElementIsVisible el)
    = Ok true /\
    answer_bool env (tr ++ [attached_wait p selector; ElementIsVisible el])
      (ElementIsEnabled el) = Ok true /\
    answer_text env
      (tr ++ [attached_wait p selector; ElementIsVisible el; ElementIsEnabled el])
      (ElementBoundingBox el) = Ok box.

(** An Action Proposal as the loop accepts it: a mapping with a [tool] that
    names one of the five actions and with [args]. *)
Definition valid_proposal (action : pyval) : Prop :=
  exists d name args,
    action = PDict d /\ lookup "tool" d = Some (PStr name) /\
    lookup "args" d = Some args /\ In name tools.

(** The text of [action["tool"]], which the error for an unknown tool
    quotes. *)
Definition tool_text (py : Python) (action : pyval) : string :=
  match action with
  | PDict d =>
      match lookup "tool" d with
      | Some tool => py_str py tool
      | None => ""
      end
  | _ => ""
  end.

(** The errors of the validation step. *)
Inductive invalid_proposal_error (py : Python) : exn -> Prop :=
| invalid_format :
    invalid_proposal_error py (mk_exn ValueError "Invalid action format")
| unknown_tool tool :
    (forall name, tool = PStr name -> ~ In name tools) ->
    invalid_proposal_error py
      (mk_exn ValueError ("Unknown tool: " ++ py_str py tool))
| unhashable_tool ty :
    invalid_proposal_error py
      (mk_exn TypeError ("unhashable type: '" ++ ty ++ "'")).

(** What [execute] raises when the cut of the reply does not parse: the
    [ValueError] made of a [JSONDecodeError], any other exception as it
    is. *)
Definition parse_failure (e : exn) : exn :=
  if exn_class_eqb (exn_type e) JSONDecodeError
  then mk_exn ValueError ("Invalid JSON response from LLM: " ++ exn_str e)
  else e.

(** A method that leaves a field of the agent as it found it. *)
Definition keeps {A F} (field : State -> F) (m : M A) : Prop :=
  forall st, field (snd (m st)) = field st.

(** Every call a method makes from [st] satisfies [P]. *)
Definition calls_from {A} (P : Call -> bool) (m : M A) (st : State) : Prop :=
  exists calls,
    trace (snd (m st)) = (trace st ++ calls)%list /\ forallb P calls = true.

(** Every call a method makes satisfies [P]. *)
Definition only_calls {A} (P : Call -> bool) (m : M A) : Prop :=
  forall st, calls_from P m st.

(** The record [type] appends, and the wait that follows the Enter key. *)
Definition typed_record (selector text : string) : record :=
  [("action", "type"); ("selector", selector); ("text", text)].

Definition load_wait (p : handle) : Call :=
  PageWaitForLoadState p "domcontentloaded" (Some 5000).

(** The request for a proposal [execute] starts with. *)
Definition proposal_request (env : Env) (client : handle) (command : string)
  (st : State) : Call :=
  GetCompletion client (proposal_messages (current_url_of env st) command).

(** What [execute] does with the reply to a proposal request, the
    [except] clauses included; [again] is the call of [execute] on the same
    command. *)
Definition after_reply (env : Env) (py : Python) (client : handle)
  (command current_url response_text : string) (again : M string) : M string :=
  try_except
    (debug_print env ("üí≠ AI Response: " ++ response_text) "ai" ;;
     try_except
       (checked <- act_and_ask env py client command
                     (proposal_messages current_url command) response_text ;;
        conclude env again checked)
       (on_processing_error env response_text))
    (on_error env).

Definition any_call (c : Call) : bool := true.

(** A method that appends the record [rec a] when it returns [a], and
    leaves [action_history] alone when it does not return. *)
Definition appends {A} (rec : A -> record) (m : M A) : Prop :=
  forall st,
    action_history (snd (m st))
    = match fst (m st) with
      | Returns a => (action_history st ++ [rec a])%list
      | _ => action_history st
      end.

(** ** Sample collaborators

    Scripted browsers and models for the concrete runs further down: the
    answers depend on the page, the selector or the element asked about, and
    the model gives its replies in order. *)

Module Sample.

Definition quoted (s : string) : string := dq ++ s ++ dq.

Fixpoint completions_so_far (tr : list Call) : nat :=
  match tr with
  | [] => 0%nat
  | GetCompletion _ _ :: rest => S (completions_so_far rest)
  | _ :: rest => completions_so_far rest
  end.

(** The number of places where a closing tag starts. *)
Fixpoint closing_tags (text : string) : nat :=
  match text with
  | EmptyString => 0%nat
  | String a rest =>
      if (Ascii.eqb a "["%char && String.prefix "/" rest)%bool
      then S (closing_tags rest)
      else closing_tags rest
  end.

(** A console in the manner of rich, as far as the runs below need it:
    every line of the agent ends in the closing tag of its style, and a
    second closing tag has nothing to close. *)
Definition markup_console (text : string) : answer unit :=
  if (closing_tags text <=? 1)%nat then Ok tt
  else Fails (mk_exn MarkupError "closing tag doesn't match any open tag").

Record Script := mk_Script {
  goto : handle -> answer (option handle);
  element : string -> answer (option handle);
  visible : handle -> bool;
  enabled : handle -> bool;
  box : handle -> answer string;
  text_content : handle -> string;
  url : handle -> string;
  replies : list string;
  other : Call -> answer unit
}.

Definition play (s : Script) : Env :=
  mk_Env
    (fun _ c => other s c)
    (fun _ c =>
       match c with
       | ElementIsVisible e => Ok (visible s e)
       | ElementIsEnabled e => Ok (enabled s e)
       | _ => Ok false
       end)
    (fun tr c =>
       match c with
       | ElementTextContent e => Ok (text_content s e)
       | ElementBoundingBox e => box s e
       | GetCompletion _ _ =>
           match nth_error (replies s) (completions_so_far tr) with
           | Some r => Ok r
           | None => Fails (mk_exn Exception "no reply left")
           end
       | _ => Ok ""
       end)
    (fun _ c =>
       match c with
       | PageGoto p _ _ _ => goto s p
       | PageWaitForSelector _ sel _ _ => element s sel
       | PageQuerySelector _ sel => element s sel
       | ContextNewPage _ => Ok (Some 2%nat)
       | _ => Ok None
       end)
    (fun _ p => url s p)
    markup_console.

Definition timeout_error : exn := mk_exn TimeoutError "Timeout 30000ms exceeded.".

Definition some_box : string := "{'x': 8, 'y': 8, 'width': 300, 'height': 40}".

(** A page at example.org with nothing on it; every call goes well. *)
Definition plain : Script :=
  mk_Script
    (fun _ => Ok (Some 200%nat))
    (fun _ => Fails timeout_error)
    (fun _ => false) (fun _ => false) (fun _ => Ok some_box) (fun _ => "")
    (fun _ => "https://example.org/")
    []
    (fun _ => Ok tt).

Definition with_goto (g : handle -> answer (option handle)) (s : Script) : Script :=
  mk_Script g (element s) (visible s) (enabled s) (box s) (text_content s) (url s)
            (replies s) (other s).

Definition with_elements (el : string -> answer (option handle))
  (vis en : handle -> bool) (s : Script) : Script :=
  mk_Script (goto s) el vis en (box s) (text_content s) (url s) (replies s) (other s).

Definition with_box (b : handle -> answer string) (s : Script) : Script :=
  mk_Script (goto s) (element s) (visible s) (enabled s) b (text_content s) (url s)
            (replies s) (other s).

Definition with_replies (rs : list string) (s : Script) : Script :=
  mk_Script (goto s) (element s) (visible s) (enabled s) (box s) (text_content s)
            (url s) rs (other s).

Definition with_other (o : Call -> answer unit) (s : Script) : Script :=
  mk_Script (goto s) (element s) (visible s) (enabled s) (box s) (text_content s)
            (url s) (replies s) o.

(** The search box is the first candidate of the search category. *)
Definition search_page : Script :=
  with_elements
    (fun sel => if (sel =? "[name='q']")%string then Ok (Some 100%nat)
                else Fails timeout_error)
    (fun _ => true) (fun _ => true) plain.

(** The first search candidate is absent, the second is attached but
    hidden, the third is attached, visible and enabled. *)
Definition third_candidate_page : Script :=
  with_elements
    (fun sel =>
       if (sel =? "#searchbox_input")%string then Ok (Some 101%nat)
       else if (sel =? "[data-testid='searchbox_input']")%string then Ok (Some 102%nat)
       else Fails timeout_error)
    (fun e => Nat.eqb e 102) (fun _ => true) plain.

(** The first and the fourth search candidate are attached, visible and
    enabled, but the bounding box of the first cannot be read. *)
Definition detached_error : exn :=
  mk_exn PlaywrightError "Element is not attached to the DOM".

Definition unmeasured_page : Script :=
  with_box
    (fun e => if Nat.eqb e 100 then Fails detached_error else Ok some_box)
    (with_elements
       (fun sel => if (sel =? "[name='q']")%string then Ok (Some 100%nat)
                   else if (sel =? "[type='text']")%string then Ok (Some 103%nat)
                   else Fails timeout_error)
       (fun _ => true) (fun _ => true) plain).

(** No page can be loaded. *)
Definition offline : Script := with_goto (fun _ => Fails timeout_error) plain.

(** The first page cannot load anything, the fresh page (handle 2) can. *)
Definition stuck_first_page : Script :=
  with_goto (fun p => if Nat.eqb p 1 then Fails timeout_error else Ok (Some 200%nat))
            plain.

(** The first page fails with an error whose text closes a tag; the fresh
    page would load. *)
Definition tagged_error : exn :=
  mk_exn PlaywrightError "net::ERR_ABORTED; page said: [/b]".

Definition stuck_with_tag : Script :=
  with_goto (fun p => if Nat.eqb p 1 then Fails tagged_error else Ok (Some 200%nat))
            plain.

(** Closing the browser connection fails. *)
Definition broken_connection : Script :=
  with_other
    (fun c => match c with
              | BrowserClose _ => Fails (mk_exn PlaywrightError "Connection closed")
              | _ => Ok tt
              end)
    plain.

(** After [setup()]: every attribute assigned, debug output on as by
    default, nothing recorded yet. *)
Definition ready : State :=
  mk_State (Some 10%nat) (Some 11%nat) (Some 1%nat) (Some 20%nat) (Some 30%nat)
           (Some 40%nat) [] true [].

Definition navigate_json : string :=
  "{" ++ quoted "tool" ++ ": " ++ quoted "navigate" ++ ", " ++ quoted "args" ++ ": {"
      ++ quoted "url" ++ ": " ++ quoted "example.org" ++ "}}".

Definition navigate_action : pyval :=
  PDict [("tool", PStr "navigate"); ("args", PDict [("url", PStr "example.org")])].

Definition scroll_json : string :=
  "{" ++ quoted "tool" ++ ": " ++ quoted "scroll" ++ ", " ++ quoted "args" ++ ": {}}".

Definition scroll_action : pyval :=
  PDict [("tool", PStr "scroll"); ("args", PDict [])].

Definition table : list (string * pyval) :=
  [(navigate_json, navigate_action); (scroll_json, scroll_action)].

(** A stand-in for the interpreter: [json.loads] knows the replies of the
    scripts, the texts of values are placeholders. *)
Definition python : Python :=
  mk_Python
    (fun s =>
       match List.find (fun kv => (fst kv =? s)%string) table with
       | Some kv => inl (snd kv)
       | None =>
           inr (mk_exn JSONDecodeError "Expecting value: line 1 column 1 (char 0)")
       end)
    (fun _ => "<json>")
    (fun _ => "<object>")
    (fun _ _ => "arguments do not fit")
    (fun _ _ _ => (Raises (mk_exn PlaywrightError "expected string"), [])).

(** The conversations of the runs below. *)
Definition go : string := "Go to example.org".
Definition one_round : Script := with_replies [navigate_json; "DONE"] plain.
Definition two_rounds : Script :=
  with_replies [navigate_json; "Not yet."; navigate_json; "Done."] plain.
Definition refusal : Script := with_replies ["I cannot do that."] plain.
Definition scrolling : Script := with_replies [scroll_json] plain.

(** Replies that carry the end-of-instruction tag of a chat template. *)
Definition tagged_refusal : Script :=
  with_replies ["Sorry [/INST] I cannot do that."] plain.
Definition tagged_scrolling : Script :=
  with_replies ["ok [/INST] " ++ scroll_json] plain.

(** The messages of the completion requests of a trace, in order. *)
Definition completion_requests (tr : list Call) : list (list message) :=
  flat_map (fun c => match c with GetCompletion _ m => [m] | _ => [] end) tr.

(** The state once the proposal has been asked for, and the state once the
    continuation check has been answered. *)
Definition asked (env : Env) : State :=
  log (proposal_request env 40%nat go ready) ready.

Definition checked (env : Env) : State :=
  snd (act_and_ask env python 40%nat go
         (proposal_messages (current_url_of env ready) go) navigate_json (asked env)).

(** The state after the first attempt of [navigate] when nothing loads. *)
Definition offline_first : State :=
  log (PageGoto 1%nat "https://example.org" 30000 None) ready.

(** The state after the Enter key on the search page. *)
Definition after_enter : State :=
  snd (type_and_press_enter (play search_page) "[name='q']" "rocq" ready).

End Sample.

(* ================================================================== *)
(** * Proofs *)

(** ** Strings *)

Lemma prefix_append (p s : string) : String.prefix p (p ++ s) = true.
Proof.
  induction p as [|a p IH]; simpl.
  - destruct s; reflexivity.
  - rewrite IH. destruct (ascii_dec a a) as [_|N]; [reflexivity | now elim N].
Qed.

Lemma append_assoc (a b c : string) : ((a ++ b) ++ c = a ++ (b ++ c))%string.
Proof. induction a as [|x a IH]; simpl; [reflexivity | now rewrite IH]. Qed.

Lemma append_nil_r (a : string) : (a ++ "")%string = a.
Proof. induction a as [|x a IH]; simpl; [reflexivity | now rewrite IH]. Qed.

Lemma contains_here (needle rest : string) : contains needle (needle ++ rest) = true.
Proof.
  destruct needle as [|a n]; simpl.
  - destruct rest; simpl; [reflexivity|]. reflexivity.
  - pose proof (prefix_append (String a n) rest) as P. simpl in P. rewrite P. reflexivity.
Qed.

Lemma contains_append (needle front rest : string) :
  contains needle (front ++ needle ++ rest) = true.
Proof.
  induction front as [|x front IH]; simpl.
  - apply contains_here.
  - rewrite IH. apply orb_true_r.
Qed.

Lemma prefix_app_l (needle a b : string) :
  String.prefix needle a = true -> String.prefix needle (a ++ b) = true.
Proof.
  revert needle. induction a as [|x a IH]; intros [|y needle]; simpl;
    try discriminate; try reflexivity.
  - now destruct b.
  - destruct (ascii_dec y x); [apply IH | discriminate].
Qed.

Lemma contains_app_l (needle a b : string) :
  contains needle a = true -> contains needle (a ++ b) = true.
Proof.
  induction a as [|x a IH]; cbn [append contains].
  - intros H. destruct needle; [|discriminate]. destruct b; reflexivity.
  - intros H. apply orb_true_iff in H as [H|H].
    + change (String x (a ++ b)) with (String x a ++ b)%string.
      rewrite (prefix_app_l _ _ _ H). reflexivity.
    + rewrite (IH H). apply orb_true_r.
Qed.

Lemma contains_app_r (needle a b : string) :
  contains needle b = true -> contains needle (a ++ b) = true.
Proof.
  intros H. induction a as [|x a IH]; cbn [append contains]; [exact H|].
  rewrite IH. apply orb_true_r.
Qed.

Lemma contains_self (s : string) : contains s s = true.
Proof. rewrite <- (append_nil_r s) at 2. apply contains_here. Qed.

Lemma find_range (c : ascii) (s : string) :
  -1 <= find c s < Z.of_nat (String.length s).
Proof.
  induction s as [|a s IH]; simpl String.length; cbn [find]; [lia|].
  destruct (Ascii.eqb a c); [lia|].
  destruct (find c s <? 0) eqn:E; [lia|]. apply Z.ltb_ge in E. lia.
Qed.

Lemma rfind_range (c : ascii) (s : string) :
  -1 <= rfind c s < Z.of_nat (String.length s).
Proof.
  induction s as [|a s IH]; simpl String.length; cbn [rfind]; [lia|].
  destruct (0 <=? rfind c s) eqn:E; [apply Z.leb_le in E; lia|].
  destruct (Ascii.eqb a c); lia.
Qed.

(** [find] gives the first occurrence. *)
Lemma find_spec (c : ascii) (s : string) :
  (find c s = -1 /\ ~ occurs c s) \/
  (exists front rest,
      s = front ++ String c rest /\ ~ occurs c front /\
      find c s = Z.of_nat (String.length front)).
Proof.
  induction s as [|a s IH]; cbn [find occurs].
  - left. tauto.
  - destruct (Ascii.eqb_spec a c) as [->|N].
    + right. exists "", s. simpl. tauto.
    + destruct IH as [[E O]|(front & rest & -> & O & E)].
      * left. rewrite E. simpl. split; [reflexivity | tauto].
      * right. exists (String a front), rest.
        rewrite E. cbn [occurs String.length append].
        destruct (Z.of_nat (String.length front) <? 0) eqn:L;
          [apply Z.ltb_lt in L; lia|].
        repeat split; [tauto | lia].
Qed.

(** [rfind] gives the last occurrence. *)
Lemma rfind_spec (c : ascii) (s : string) :
  (rfind c s = -1 /\ ~ occurs c s) \/
  (exists front rest,
      s = front ++ String c rest /\ ~ occurs c rest /\
      rfind c s = Z.of_nat (String.length front)).
Proof.
  induction s as [|a s IH]; cbn [rfind occurs].
  - left. tauto.
  - destruct IH as [[E O]|(front & rest & -> & O & E)].
    + rewrite E. simpl (0 <=? -1).
      destruct (Ascii.eqb_spec a c) as [->|N].
      * right. exists "", s. simpl. tauto.
      * left. split; [reflexivity | tauto].
    + right. exists (String a front), rest. rewrite E.
      destruct (0 <=? Z.of_nat (String.length front)) eqn:L;
        [|apply Z.leb_gt in L; lia].
      cbn [String.length append]. repeat split; [assumption | lia].
Qed.

Lemma occurs_append (c : ascii) (a b : string) :
  occurs c (a ++ b) <-> occurs c a \/ occurs c b.
Proof. induction a as [|x a IH]; simpl; tauto. Qed.

(** Two ways of cutting the same string at different characters. *)
Lemma split_twice (a b : ascii) (f1 r1 f2 r2 : string) :
  (f1 ++ String a r1 = f2 ++ String b r2)%string ->
  (String.length f1 < String.length f2)%nat ->
  exists mid, f2 = (f1 ++ String a mid)%string /\ r1 = (mid ++ String b r2)%string.
Proof.
  revert f2. induction f1 as [|x f1 IH]; intros [|y f2]; simpl; intros E L; try lia.
  - injection E as -> ->. exists f2. split; reflexivity.
  - injection E as -> E. destruct (IH f2 E ltac:(lia)) as (mid & -> & ->).
    exists mid. split; reflexivity.
Qed.

Lemma substring_middle (front mid rest : string) :
  substring (String.length front) (String.length mid) (front ++ mid ++ rest) = mid.
Proof.
  induction front as [|x front IH]; simpl; [|exact IH].
  revert rest. induction mid as [|y mid IH]; intros rest; simpl.
  - destruct rest; reflexivity.
  - now rewrite IH.
Qed.

Lemma length_append (a b : string) :
  String.length (a ++ b) = (String.length a + String.length b)%nat.
Proof. induction a as [|x a IH]; simpl; [reflexivity | now rewrite IH]. Qed.

Lemma same_cut (a b : ascii) (f1 r1 f2 r2 : string) :
  (f1 ++ String a r1 = f2 ++ String b r2)%string ->
  String.length f1 = String.length f2 -> a = b.
Proof.
  revert f2. induction f1 as [|x f1 IH]; intros [|y f2]; simpl; intros E L;
    try discriminate.
  - now injection E.
  - injection E as _ E. injection L as L. exact (IH f2 E L).
Qed.

(** What [extract_json] cuts out: the text from the first opening brace to
    the last closing brace, both included. *)
Lemma extract_json_some (reply js : string) :
  extract_json reply = Some js ->
  exists front mid rest,
    reply = (front ++ js ++ rest)%string /\
    js = ("{" ++ mid ++ "}")%string /\
    ~ occurs "{"%char front /\ ~ occurs "}"%char rest.
Proof.
  unfold extract_json, slice. intros H.
  destruct (find_spec "{"%char reply) as [[E _]|(f1 & r1 & R1 & O1 & E1)].
  { rewrite E in H. discriminate. }
  destruct (rfind_spec "}"%char reply) as [[E _]|(f2 & r2 & R2 & O2 & E2)].
  { rewrite E, E1 in H.
    replace (Z.of_nat (String.length f1) <? -1 + 1) with false in H
      by (symmetry; apply Z.ltb_ge; lia).
    rewrite andb_false_r in H. discriminate. }
  rewrite E1, E2 in H.
  destruct (Z.of_nat (String.length f1) <? Z.of_nat (String.length f2) + 1) eqn:L;
    [|rewrite andb_false_r in H; discriminate].
  apply Z.ltb_lt in L.
  assert (String.length f1 <> String.length f2) as N.
  { intros Q. rewrite R1 in R2.
    pose proof (same_cut _ _ _ _ _ _ R2 Q). discriminate. }
  rewrite R1 in R2.
  destruct (split_twice _ _ _ _ _ _ R2 ltac:(lia)) as (mid & F2 & R).
  replace (0 <=? Z.of_nat (String.length f1)) with true in H
    by (symmetry; apply Z.leb_le; lia).
  simpl in H. injection H as H.
  exists f1, mid, r2. subst f2 r1.
  assert (reply = f1 ++ ("{" ++ mid ++ "}") ++ r2)%string as Q.
  { rewrite R1. simpl. f_equal. f_equal. rewrite append_assoc. reflexivity. }
  assert (js = "{" ++ mid ++ "}")%string as J.
  { rewrite <- H. rewrite Q at 1. rewrite Nat2Z.id.
    replace (Z.to_nat _) with (String.length ("{" ++ mid ++ "}")).
    - apply substring_middle.
    - rewrite !length_append. simpl. lia. }
  repeat split; try assumption. rewrite J. exact Q.
Qed.

Lemma find_first (c : ascii) (front rest : string) :
  0 <= find c (front ++ String c rest) <= Z.of_nat (String.length front).
Proof.
  induction front as [|x front IH]; cbn [append find String.length].
  - rewrite Ascii.eqb_refl. simpl. lia.
  - destruct (Ascii.eqb x c); [lia|].
    destruct (find c (front ++ String c rest) <? 0) eqn:L;
      [apply Z.ltb_lt in L; lia | lia].
Qed.

Lemma rfind_last (c : ascii) (front rest : string) :
  Z.of_nat (String.length front) <= rfind c (front ++ String c rest).
Proof.
  induction front as [|x front IH]; cbn [append rfind String.length].
  - destruct (0 <=? rfind c rest) eqn:L; [apply Z.leb_le in L; lia|].
    rewrite Ascii.eqb_refl. simpl. lia.
  - destruct (0 <=? rfind c (front ++ String c rest)) eqn:L;
      [lia | apply Z.leb_gt in L; lia].
Qed.

(** [extract_json] gives up exactly on the replies that have no opening
    brace with a closing brace somewhere after it. *)
Lemma extract_json_none (reply : string) :
  extract_json reply = None <->
  ~ exists front mid rest, reply = (front ++ "{" ++ mid ++ "}" ++ rest)%string.
Proof.
  split.
  - intros H (front & mid & rest & ->). unfold extract_json in H.
    pose proof (find_first "{"%char front (mid ++ "}" ++ rest)) as F.
    pose proof (rfind_last "}"%char (front ++ "{" ++ mid) rest) as R.
    replace ((front ++ "{" ++ mid) ++ String "}" rest)%string
      with (front ++ "{" ++ mid ++ "}" ++ rest)%string in R
      by (now rewrite append_assoc).
    rewrite length_append in R. simpl in *.
    destruct (0 <=? _) eqn:A in H; [|apply Z.leb_gt in A; lia].
    destruct (_ <? _) eqn:B in H; [discriminate|]. apply Z.ltb_ge in B. lia.
  - intros H. destruct (extract_json reply) as [js|] eqn:E; [|reflexivity].
    destruct (extract_json_some _ _ E) as (front & mid & rest & -> & -> & _).
    elim H. exists front, mid, rest. simpl. f_equal. f_equal.
    now rewrite append_assoc.
Qed.

(** ** The scheme default of [navigate] *)

(** C8: urls that carry a scheme pass through unchanged, every other url
    gets exactly ["https://"] in front, and normalizing a normalized url
    changes nothing. *)
Theorem normalize_url_idempotent (url : string) :
  (startswith "http://" url || startswith "https://" url = true ->
   normalize_url url = url) /\
  (startswith "http://" url || startswith "https://" url = false ->
   normalize_url url = "https://" ++ url) /\
  normalize_url (normalize_url url) = normalize_url url.
Proof.
  unfold normalize_url.
  destruct (startswith "http://" url || startswith "https://" url) eqn:E.
  - repeat split; try discriminate; try reflexivity. now rewrite E.
  - repeat split; try discriminate; try reflexivity.
    unfold startswith at 2. rewrite (prefix_append "https://" url).
    now rewrite orb_true_r.
Qed.

Lemma normalize_url_idempotent_witness :
  (startswith "http://" "example.com" || startswith "https://" "example.com" = false)
  /\ normalize_url "example.com" = "https://example.com"
  /\ normalize_url "https://example.com" = "https://example.com".
Proof.
  split; [reflexivity|]. split.
  - apply (proj1 (proj2 (normalize_url_idempotent "example.com"))). reflexivity.
  - apply (proj1 (normalize_url_idempotent "https://example.com")). reflexivity.
Defined.

(** ** Texts that close no tag *)

Lemma prefix_tag (x : ascii) (rest : string) :
  String.prefix "[/" (String x rest) = (Ascii.eqb x "[" && String.prefix "/" rest)%bool.
Proof.
  cbn [String.prefix]. destruct (ascii_dec "[" x) as [<-|N].
  - reflexivity.
  - destruct (Ascii.eqb_spec x "[") as [->|_]; [now elim N | reflexivity].
Qed.

(** A text that closes no tag can be put in front of another one when the
    two do not make up the start of a closing tag between them. *)
Lemma closes_tag_append (a b : string) :
  closes_tag a = false ->
  ends_bracket a = false \/ String.prefix "/" b = false ->
  closes_tag (a ++ b) = closes_tag b.
Proof.
  unfold closes_tag. induction a as [|x a IH]; intros Ha Hb; [reflexivity|].
  cbn [append contains] in *. rewrite prefix_tag in *.
  apply orb_false_iff in Ha as [Hx Ha].
  rewrite IH; [|exact Ha|].
  - replace (Ascii.eqb x "[" && String.prefix "/" (a ++ b))%bool with false;
      [reflexivity|].
    symmetry. destruct (Ascii.eqb x "[") eqn:X; [|reflexivity]. cbn [andb] in *.
    destruct a as [|y a]; cbn [append].
    + destruct Hb as [Hb|Hb]; [|exact Hb]. cbn [ends_bracket] in Hb. congruence.
    + cbn [String.prefix] in *. destruct (ascii_dec "/" y); [|reflexivity].
      destruct a; discriminate Hx.
  - destruct a as [|y a]; [now left|]. exact Hb.
Qed.

Ltac plain_text :=
  repeat first
    [ assumption
    | reflexivity
    | progress cbn [exn_str]
    | rewrite closes_tag_append;
      [ | first [assumption | reflexivity]
        | first [left; reflexivity | right; reflexivity] ] ].

(** The scheme default keeps a url free of closing tags. *)
Lemma normalize_url_plain (url : string) :
  closes_tag url = false -> closes_tag (normalize_url url) = false.
Proof.
  intros H. unfold normalize_url.
  destruct (startswith "http://" url || startswith "https://" url); plain_text.
Qed.

(** ** How the methods compose *)

Section Composition.

Context {A B : Type}.

Lemma bind_returns (m : M A) (k : A -> M B) st a st' :
  m st = (Returns a, st') -> bind m k st = k a st'.
Proof. unfold bind. now intros ->. Qed.

Lemma bind_raises (m : M A) (k : A -> M B) st e st' :
  m st = (Raises e, st') -> bind m k st = (Raises e, st').
Proof. unfold bind. now intros ->. Qed.

Lemma try_returns (m : M A) (h : exn -> M A) st a st' :
  m st = (Returns a, st') -> try_except m h st = (Returns a, st').
Proof. unfold try_except. now intros ->. Qed.

Lemma try_raises (m : M A) (h : exn -> M A) st e st' :
  m st = (Raises e, st') -> try_except m h st = h e st'.
Proof. unfold try_except. now intros ->. Qed.

Lemma try_bind_returns (m : M A) (k : A -> M B) (h : exn -> M B) st a st' :
  m st = (Returns a, st') -> try_except (bind m k) h st = try_except (k a) h st'.
Proof. unfold try_except, bind. now intros ->. Qed.

Lemma try_bind_raises (m : M A) (k : A -> M B) (h : exn -> M B) st e st' :
  m st = (Raises e, st') -> try_except (bind m k) h st = h e st'.
Proof. unfold try_except, bind. now intros ->. Qed.

Context {F : Type} (field : State -> F).

Lemma keeps_bind (m : M A) (k : A -> M B) :
  keeps field m -> (forall a, keeps field (k a)) -> keeps field (bind m k).
Proof.
  intros Hm Hk st. unfold bind. specialize (Hm st).
  destruct (m st) as [[a|e|] st']; simpl in *; [|assumption..].
  now rewrite Hk.
Qed.

Lemma keeps_try (m : M A) (h : exn -> M A) :
  keeps field m -> (forall e, keeps field (h e)) -> keeps field (try_except m h).
Proof.
  intros Hm Hh st. unfold try_except. specialize (Hm st).
  destruct (m st) as [[a|e|] st']; simpl in *; [assumption| |assumption].
  now rewrite Hh.
Qed.

Variable P : Call -> bool.

Lemma calls_from_bind (m : M A) (k : A -> M B) st :
  calls_from P m st ->
  (forall a st', m st = (Returns a, st') -> calls_from P (k a) st') ->
  calls_from P (bind m k) st.
Proof.
  intros (l1 & T1 & F1) Hk. unfold calls_from, bind.
  destruct (m st) as [[a|e|] st']; simpl in *; [|now exists l1..].
  destruct (Hk a st' eq_refl) as (l2 & T2 & F2). exists (l1 ++ l2)%list.
  rewrite T2, T1, app_assoc, forallb_app, F1, F2. auto.
Qed.

Lemma calls_from_try (m : M A) (h : exn -> M A) st :
  calls_from P m st ->
  (forall e st', m st = (Raises e, st') -> calls_from P (h e) st') ->
  calls_from P (try_except m h) st.
Proof.
  intros (l1 & T1 & F1) Hh. unfold calls_from, try_except.
  destruct (m st) as [[a|e|] st']; simpl in *; [now exists l1| |now exists l1].
  destruct (Hh e st' eq_refl) as (l2 & T2 & F2). exists (l1 ++ l2)%list.
  rewrite T2, T1, app_assoc, forallb_app, F1, F2. auto.
Qed.

Lemma only_calls_bind (m : M A) (k : A -> M B) :
  only_calls P m -> (forall a, only_calls P (k a)) -> only_calls P (bind m k).
Proof. intros Hm Hk st. apply calls_from_bind; [apply Hm | intros; apply Hk]. Qed.

Lemma only_calls_try (m : M A) (h : exn -> M A) :
  only_calls P m -> (forall e, only_calls P (h e)) -> only_calls P (try_except m h).
Proof. intros Hm Hh st. apply calls_from_try; [apply Hm | intros; apply Hh]. Qed.

Lemma only_calls_silent (m : M A) :
  (forall st, trace (snd (m st)) = trace st) -> only_calls P m.
Proof. intros H st. exists []. rewrite app_nil_r. auto. Qed.

End Composition.

Lemma not_both (P : Call -> bool) (calls : list Call) :
  forallb (fun c => negb (P c)) calls = true -> existsb P calls = true -> False.
Proof.
  induction calls as [|c calls IH]; simpl; [discriminate|].
  destruct (P c); simpl; [discriminate | exact IH].
Qed.

Create HintDb agent discriminated.

(** The steps that touch neither the field in question nor the browser. *)
Ltac frame_leaf :=
  solve
    [ intros ?st;
      cbv [the_page the_context get set_page append_history ret raise hang
           console_print];
      repeat match goal with
             | |- context [match ?x with _ => _ end] => destruct x eqn:?
             end;
      simpl; congruence
    | apply only_calls_silent; intros ?st;
      cbv [the_page the_context get set_page append_history ret raise hang
           console_print];
      repeat match goal with
             | |- context [match ?x with _ => _ end] => destruct x eqn:?
             end;
      reflexivity
    | auto with agent ].

(** One step of a proof that a method keeps a field of the agent or makes
    only calls of some kind. *)
Ltac frame_step :=
  first
    [ solve [auto with agent]
    | apply keeps_bind; [|intro]
    | apply keeps_try; [|intro]
    | apply only_calls_bind; [|intro]
    | apply only_calls_try; [|intro]
    | match goal with
      | |- keeps _ (match ?x with _ => _ end) => destruct x
      | |- only_calls _ (match ?x with _ => _ end) => destruct x
      | |- keeps _ (if ?x then _ else _) => destruct x
      | |- only_calls _ (if ?x then _ else _) => destruct x
      end
    | frame_leaf ].

Ltac frame := repeat frame_step.

(** ** The console *)

Section Console.

Variable env : Env.

Lemma colors_styles (level : string) : In (colors level) styles.
Proof.
  unfold colors, styles.
  repeat match goal with
         | |- context [if ?b then _ else _] => destruct b
         end; simpl; auto 10.
Qed.

(** A debug line changes nothing in the agent. *)
Lemma debug_print_state (message level : string) (st : State) :
  snd (debug_print env message level st) = st.
Proof. unfold debug_print, get, bind, console_print, ret. now destruct (debug st). Qed.

Lemma debug_print_cases (message level : string) (st : State) :
  debug_print env message level st = (Returns tt, st) \/
  exists e, debug_print env message level st = (Raises e, st).
Proof.
  unfold debug_print, get, bind, console_print, ret.
  destruct (debug st); [|now left].
  destruct (console env _) as [[]|e]; simpl; [now left | right; now exists e].
Qed.

(** It is printed when debug output is off or the text closes no tag. *)
Lemma debug_print_returns (st : State) (message level : string) :
  renders_markup env ->
  printable st message ->
  debug_print env message level st = (Returns tt, st).
Proof.
  intros R H. unfold printable in H. unfold debug_print, get, bind, console_print, ret.
  destruct (debug st); [|reflexivity].
  now rewrite (R _ _ (colors_styles level) (H eq_refl)).
Qed.

Lemma console_print_returns (st : State) (style message : string) :
  renders_markup env ->
  In style styles ->
  closes_tag message = false ->
  console_print env (markup style message) st = (Returns tt, st).
Proof. intros R I H. unfold console_print. now rewrite (R _ _ I H). Qed.

Lemma keeps_debug_print {F} (field : State -> F) message level :
  keeps field (debug_print env message level).
Proof. intros st. now rewrite debug_print_state. Qed.

Lemma only_calls_debug_print P message level :
  only_calls P (debug_print env message level).
Proof. apply only_calls_silent. intros st. now rewrite debug_print_state. Qed.

End Console.

#[export] Hint Resolve keeps_debug_print only_calls_debug_print : agent.

Section Behaviour.

Variable env : Env.
Variable py : Python.

(** *** Calls on the collaborators change the trace and nothing else *)

Lemma keeps_call_unit {F} (field : State -> F) c :
  (forall c st, field (log c st) = field st) -> keeps field (call_unit env c).
Proof. intros H st. apply H. Qed.

Lemma keeps_call_bool {F} (field : State -> F) c :
  (forall c st, field (log c st) = field st) -> keeps field (call_bool env c).
Proof. intros H st. apply H. Qed.

Lemma keeps_call_text {F} (field : State -> F) c :
  (forall c st, field (log c st) = field st) -> keeps field (call_text env c).
Proof. intros H st. apply H. Qed.

Lemma keeps_call_ref {F} (field : State -> F) c :
  (forall c st, field (log c st) = field st) -> keeps field (call_ref env c).
Proof. intros H st. apply H. Qed.

Lemma only_calls_call_unit P c : P c = true -> only_calls P (call_unit env c).
Proof. intros H st. exists [c]. simpl. now rewrite H. Qed.

Lemma only_calls_call_bool P c : P c = true -> only_calls P (call_bool env c).
Proof. intros H st. exists [c]. simpl. now rewrite H. Qed.

Lemma only_calls_call_text P c : P c = true -> only_calls P (call_text env c).
Proof. intros H st. exists [c]. simpl. now rewrite H. Qed.

Lemma only_calls_call_ref P c : P c = true -> only_calls P (call_ref env c).
Proof. intros H st. exists [c]. simpl. now rewrite H. Qed.

Hint Extern 1 (keeps _ (call_unit _ _)) => apply keeps_call_unit; reflexivity : agent.
Hint Extern 1 (keeps _ (call_bool _ _)) => apply keeps_call_bool; reflexivity : agent.
Hint Extern 1 (keeps _ (call_text _ _)) => apply keeps_call_text; reflexivity : agent.
Hint Extern 1 (keeps _ (call_ref _ _)) => apply keeps_call_ref; reflexivity : agent.
Hint Extern 1 (only_calls _ (call_unit _ _)) =>
  apply only_calls_call_unit; reflexivity : agent.
Hint Extern 1 (only_calls _ (call_bool _ _)) =>
  apply only_calls_call_bool; reflexivity : agent.
Hint Extern 1 (only_calls _ (call_text _ _)) =>
  apply only_calls_call_text; reflexivity : agent.
Hint Extern 1 (only_calls _ (call_ref _ _)) =>
  apply only_calls_call_ref; reflexivity : agent.

Ltac unfold_page_calls :=
  unfold page_goto, page_evaluate, page_wait_for_load_state,
    page_wait_for_selector, page_query_selector, page_wait_for_timeout,
    page_close, keyboard_press, context_new_page, page_url.

(** The side condition of a debug line: the texts it is made of are
    printable. *)
Ltac shown :=
  let D := fresh "D" in
  intro D; simpl in D;
  repeat match goal with
         | H : printable _ _ |- _ => specialize (H ltac:(congruence))
         end;
  try (exfalso; congruence);
  unfold navigation_error, typing_line, context_text;
  plain_text.

(** One debug line that gets printed. *)
Ltac printed R :=
  match goal with
  | |- context [bind (debug_print ?e ?m ?l) ?k ?st] =>
      rewrite (bind_returns (debug_print e m l) k st tt st)
        by (apply (debug_print_returns e st m l R); shown)
  | |- context [try_except (bind (debug_print ?e ?m ?l) ?k) ?h ?st] =>
      rewrite (try_bind_returns (debug_print e m l) k h st tt st)
        by (apply (debug_print_returns e st m l R); shown)
  end.

Lemma trace_log c st : trace (log c st) = (trace st ++ [c])%list.
Proof. reflexivity. Qed.

Lemma page_url_at st p :
  page st = Some p -> page_url env st = (Returns (url_of env (trace st) p), st).
Proof. intros P. unfold page_url, the_page, bind. now rewrite P. Qed.

Lemma page_wait_for_load_state_at st p state timeout :
  page st = Some p ->
  page_wait_for_load_state env state timeout st
  = (await (answer_unit env (trace st) (PageWaitForLoadState p state timeout)),
     log (PageWaitForLoadState p state timeout) st).
Proof.
  intros P. unfold page_wait_for_load_state, the_page, call_unit, bind.
  now rewrite P.
Qed.

Lemma page_wait_for_selector_at st p selector state timeout :
  page st = Some p ->
  page_wait_for_selector env selector state timeout st
  = (await (answer_ref env (trace st) (PageWaitForSelector p selector state timeout)),
     log (PageWaitForSelector p selector state timeout) st).
Proof.
  intros P. unfold page_wait_for_selector, the_page, call_ref, bind.
  now rewrite P.
Qed.

(** *** [navigate]: one recovery on a fresh page *)

Lemma navigate_first_keeps_debug url : keeps debug (navigate_first env url).
Proof. unfold navigate_first. unfold_page_calls. frame. Qed.

(** The recovery, call by call. *)
Lemma navigate_retry_run url st :
  renders_markup env ->
  navigate_retry env url st
  = match page st with
    | None => (Raises (none_has_no "close"), st)
    | Some p =>
        let closed := log (PageClose p) st in
        match answer_unit env (trace st) (PageClose p) with
        | Fails e2 => (Raises e2, closed)
        | Ok _ =>
            match context st with
            | None => (Raises (agent_has_no "context"), closed)
            | Some c =>
                let opened := log (ContextNewPage c) closed in
                match answer_ref env (trace closed) (ContextNewPage c) with
                | Fails e2 => (Raises e2, opened)
                | Ok None => (Raises (none_has_no "goto"), with_page None opened)
                | Ok (Some fresh) =>
                    let loaded := log (retry_goto fresh url) (with_page (Some fresh) opened) in
                    match answer_ref env (trace opened) (retry_goto fresh url) with
                    | Fails e2 => (Raises e2, loaded)
                    | Ok _ =>
                        (Returns ("Navigated to " ++ url ++ " (with fresh page)"), loaded)
                    end
                end
            end
        end
    end.
Proof.
  intros R. unfold navigate_retry. printed R.
  unfold page_close, context_new_page, page_goto, the_page, the_context, call_unit,
    call_ref, set_page, bind, ret.
  destruct (page st) as [p|] eqn:P; [|reflexivity]. cbv zeta.
  destruct (answer_unit env (trace st) (PageClose p)) as [[]|e2]; simpl; [|reflexivity].
  destruct (context st) as [c|] eqn:C; [|reflexivity]. simpl.
  destruct (answer_ref env _ (ContextNewPage c)) as [[fresh|]|e2]; simpl;
    try reflexivity.
  unfold retry_goto.
  destruct (answer_ref env _ (PageGoto fresh _ _ _)) as [r|e2]; reflexivity.
Qed.

(** What [navigate] does once its first attempt has raised. *)
Lemma navigate_after_failure url st st1 e :
  renders_markup env ->
  printable st url ->
  printable st (exn_str e) ->
  navigate_first env (normalize_url url) st = (Raises e, st1) ->
  navigate env url st
  = try_except (navigate_retry env (normalize_url url))
      (fun retry_error => raise (both_failed (normalize_url url) e retry_error)) st1.
Proof.
  intros R Hu He H. unfold navigate. printed R. cbv zeta.
  rewrite (try_raises _ _ _ _ _ H).
  pose proof (navigate_first_keeps_debug (normalize_url url) st) as K.
  rewrite H in K. simpl in K.
  assert (printable st (normalize_url url)) as Hn
      by (intros D; apply normalize_url_plain; auto).
  printed R. reflexivity.
Qed.

Lemma both_failed_texts url e e2 :
  contains (exn_str e) (exn_str (both_failed url e e2)) = true /\
  contains (exn_str e2) (exn_str (both_failed url e e2)) = true.
Proof.
  unfold both_failed, navigation_error. cbn [exn_str]. split.
  - apply contains_app_l. do 3 apply contains_app_r. apply contains_self.
  - do 3 apply contains_app_r. apply contains_self.
Qed.


(** When the first attempt raises and the recovery is reached, [navigate]
    records nothing, whether the fresh page loads the url or not. *)
(** *** [close]: the releases run in sequence *)

Ltac split_release_prefix H :=
  match type of H with
  | _ = (?front ++ _ :: _)%list =>
      repeat (destruct front; simpl in H; try discriminate H);
      injection H as H; subst
  end.

(** C9, as the code has it: [close] attempts the releases in the order
    browser, playwright, browser process, each resource only when it is
    there.  It returns once every one of them has been attempted and has
    come back; when a release raises, [close] raises that exception and the
    releases after it are not attempted. *)
Theorem close_stops_at_first_failure (st : State) :
  exists done skipped,
    trace (snd (close env st)) = (trace st ++ done)%list /\
    release_calls st = (done ++ skipped)%list /\
    match fst (close env st) with
    | Returns _ =>
        skipped = [] /\
        forall front c rest,
          done = (front ++ c :: rest)%list ->
          answer_unit env (trace st ++ front) c = Ok tt
    | Raises e =>
        exists front c,
          done = (front ++ [c])%list /\
          answer_unit env (trace st ++ front) c = Fails e
    | Hangs => False
    end.
Proof.
  unfold close, release_calls, get, call_unit, bind, ret.
  destruct (browser st) as [b|]; simpl.
  - destruct (answer_unit env (trace st) (BrowserClose b)) as [[]|e] eqn:A1; simpl.
    2:{ exists [BrowserClose b]. eexists. repeat split.
        exists [], (BrowserClose b). rewrite app_nil_r. auto. }
    destruct (playwright st) as [pw|]; simpl.
    + destruct (answer_unit env _ (PlaywrightStop pw)) as [[]|e] eqn:A2; simpl.
      2:{ exists [BrowserClose b; PlaywrightStop pw]. eexists.
          rewrite <- !app_assoc. repeat split.
          exists [BrowserClose b], (PlaywrightStop pw). auto. }
      destruct (chrome_process st) as [pr|]; simpl.
      * exists [BrowserClose b; PlaywrightStop pw; ProcessKill pr], [].
        rewrite <- !app_assoc in *. simpl in *.
        destruct (answer_unit env _ (ProcessKill pr)) as [[]|e] eqn:A3; simpl.
        -- repeat split. intros front c rest E.
           split_release_prefix E; rewrite ?app_nil_r; simpl; assumption.
        -- repeat split.
           exists [BrowserClose b; PlaywrightStop pw], (ProcessKill pr). auto.
      * exists [BrowserClose b; PlaywrightStop pw], [].
        rewrite <- !app_assoc in *. simpl in *. repeat split.
        intros front c rest E.
        split_release_prefix E; rewrite ?app_nil_r; simpl; assumption.
    + destruct (chrome_process st) as [pr|]; simpl.
      * exists [BrowserClose b; ProcessKill pr], [].
        rewrite <- !app_assoc in *. simpl in *.
        destruct (answer_unit env _ (ProcessKill pr)) as [[]|e] eqn:A3; simpl.
        -- repeat split. intros front c rest E.
           split_release_prefix E; rewrite ?app_nil_r; simpl; assumption.
        -- repeat split. exists [BrowserClose b], (ProcessKill pr). auto.
      * exists [BrowserClose b], []. repeat split.
        intros front c rest E.
        split_release_prefix E; rewrite ?app_nil_r; simpl; assumption.
  - destruct (playwright st) as [pw|]; simpl.
    + destruct (answer_unit env _ (PlaywrightStop pw)) as [[]|e] eqn:A2; simpl.
      2:{ exists [PlaywrightStop pw]. eexists. repeat split.
          exists [], (PlaywrightStop pw). rewrite app_nil_r. auto. }
      destruct (chrome_process st) as [pr|]; simpl.
      * exists [PlaywrightStop pw; ProcessKill pr], [].
        rewrite <- !app_assoc in *. simpl in *.
        destruct (answer_unit env _ (ProcessKill pr)) as [[]|e] eqn:A3; simpl.
        -- repeat split. intros front c rest E.
           split_release_prefix E; rewrite ?app_nil_r; simpl; assumption.
        -- repeat split. exists [PlaywrightStop pw], (ProcessKill pr). auto.
      * exists [PlaywrightStop pw], []. repeat split.
        intros front c rest E.
        split_release_prefix E; rewrite ?app_nil_r; simpl; assumption.
    + destruct (chrome_process st) as [pr|]; simpl.
      * exists [ProcessKill pr], [].
        destruct (answer_unit env _ (ProcessKill pr)) as [[]|e] eqn:A3; simpl.
        -- repeat split. intros front c rest E.
           split_release_prefix E; rewrite ?app_nil_r; simpl; assumption.
        -- repeat split. exists [], (ProcessKill pr). rewrite app_nil_r. auto.
      * exists [], []. rewrite app_nil_r. repeat split.
        intros front c rest E. destruct front; discriminate.
Qed.

(** *** [type]: the submit buttons are a fallback *)

Lemma type_and_press_enter_calls selector text :
  only_calls (fun c => negb (is_button_wait c))
             (type_and_press_enter env selector text).
Proof. unfold type_and_press_enter. unfold_page_calls. frame. Qed.

Lemma type_and_press_enter_keeps_debug selector text :
  keeps debug (type_and_press_enter env selector text).
Proof. unfold type_and_press_enter. unfold_page_calls. frame. Qed.

(** A debug line that returned left the state as it was. *)
Lemma debug_print_returned message level st a st' :
  debug_print env message level st = (Returns a, st') -> st' = st.
Proof.
  intros H. pose proof (debug_print_state env message level st) as S.
  rewrite H in S. exact S.
Qed.

Lemma reraise_calls {A} P message level e :
  only_calls P (debug_print env message level ;; raise (A:=A) e).
Proof. frame. Qed.

(** Without a page, with a wait for the load that fails, or with a url
    other than that of the main page, [submit_fallback] waits for no
    button. *)
Lemma submit_fallback_quiet_calls st1 :
  (forall p,
      page st1 = Some p ->
      answer_unit env (trace st1) (load_wait p) = Ok tt ->
      still_on_main_page (url_of env (trace st1 ++ [load_wait p]) p) = false) ->
  calls_from (fun c => negb (is_button_wait c)) (submit_fallback env) st1.
Proof.
  intros H. unfold submit_fallback.
  apply calls_from_try; [|intros; apply only_calls_debug_print].
  apply calls_from_bind; [unfold_page_calls; frame|].
  intros [] st2 W.
  destruct (page st1) as [p|] eqn:P.
  2:{ unfold page_wait_for_load_state, the_page, bind in W. rewrite P in W.
      discriminate W. }
  rewrite (page_wait_for_load_state_at st1 p _ _ P) in W. fold (load_wait p) in W.
  destruct (answer_unit env (trace st1) (load_wait p)) as [[]|e2] eqn:A;
    [|discriminate W].
  injection W as <-.
  apply calls_from_bind; [apply only_calls_debug_print|].
  intros [] st3 D. apply debug_print_returned in D. subst st3.
  unfold calls_from.
  rewrite (bind_returns _ _ _ _ _ (page_url_at (log (load_wait p) st1) p P)).
  rewrite trace_log, (H p eq_refl A).
  exists []. rewrite app_nil_r. auto.
Qed.

(** The calls of [type] hold a wait for a button only in the one case. *)
Lemma type_calls selector text st :
  calls_from (fun c => negb (is_button_wait c)) (type env selector text) st \/
  exists st1 p,
    type_and_press_enter env selector text st = (Returns tt, st1) /\
    page st1 = Some p /\
    answer_unit env (trace st1) (load_wait p) = Ok tt /\
    still_on_main_page (url_of env (trace st1 ++ [load_wait p]) p) = true.
Proof.
  assert ((forall st1,
              type_and_press_enter env selector text st = (Returns tt, st1) ->
              calls_from (fun c => negb (is_button_wait c)) (submit_fallback env) st1) ->
          calls_from (fun c => negb (is_button_wait c)) (type env selector text) st)
    as Quiet.
  { intros Q. unfold type.
    apply calls_from_bind; [apply only_calls_debug_print|].
    intros [] st0 D. apply debug_print_returned in D. subst st0.
    apply calls_from_try; [|intros e' st' _; apply reraise_calls].
    apply calls_from_bind; [apply type_and_press_enter_calls|].
    intros [] st1 E.
    apply calls_from_bind; [now apply Q|].
    intros [] st2 _. exists []. rewrite app_nil_r. auto. }
  destruct (type_and_press_enter env selector text st) as [[[]|e|] st1] eqn:E.
  2,3: left; apply Quiet; intros ? [=].
  destruct (page st1) as [p|] eqn:P.
  2:{ left. apply Quiet. intros ? [= <-]. apply submit_fallback_quiet_calls.
      intros p P'. congruence. }
  destruct (answer_unit env (trace st1) (load_wait p)) as [[]|e2] eqn:A.
  2:{ left. apply Quiet. intros ? [= <-]. apply submit_fallback_quiet_calls.
      intros p' P' A'. congruence. }
  destruct (still_on_main_page (url_of env (trace st1 ++ [load_wait p]) p)) eqn:U.
  - right. exists st1, p. auto.
  - left. apply Quiet. intros ? [= <-]. apply submit_fallback_quiet_calls.
    intros p' P' A'. congruence.
Qed.

(** After the Enter key, on a url other than that of the main page. *)
Lemma submit_fallback_skips st1 p :
  renders_markup env ->
  page st1 = Some p ->
  answer_unit env (trace st1) (load_wait p) = Ok tt ->
  still_on_main_page (url_of env (trace st1 ++ [load_wait p]) p) = false ->
  submit_fallback env st1 = (Returns tt, log (load_wait p) st1).
Proof.
  intros R P A U. unfold submit_fallback.
  rewrite (try_bind_returns _ _ _ st1 tt (log (load_wait p) st1))
    by (rewrite (page_wait_for_load_state_at st1 p _ _ P); fold (load_wait p);
        now rewrite A).
  printed R.
  rewrite (try_bind_returns _ _ _ _ _ _ (page_url_at (log (load_wait p) st1) p P)).
  rewrite trace_log, U. reflexivity.
Qed.

(** After the Enter key, when the wait for the load fails. *)
Lemma submit_fallback_warns st1 p e2 :
  renders_markup env ->
  page st1 = Some p ->
  answer_unit env (trace st1) (load_wait p) = Fails e2 ->
  printable st1 (exn_str e2) ->
  submit_fallback env st1 = (Returns tt, log (load_wait p) st1).
Proof.
  intros R P A He. unfold submit_fallback.
  rewrite (try_bind_raises _ _ _ st1 e2 (log (load_wait p) st1))
    by (rewrite (page_wait_for_load_state_at st1 p _ _ P); fold (load_wait p);
        now rewrite A).
  apply (debug_print_returns env _ _ _ R). shown.
Qed.

Lemma type_after_enter selector text st st1 st2 :
  debug_print env (typing_line selector text) "info" st = (Returns tt, st) ->
  type_and_press_enter env selector text st = (Returns tt, st1) ->
  submit_fallback env st1 = (Returns tt, st2) ->
  type env selector text st
  = (Returns ("Typed '" ++ text ++ "' into " ++ selector ++ " and submitted"),
     recorded (typed_record selector text) st2).
Proof.
  intros D E F. unfold type. rewrite (bind_returns _ _ _ _ _ D).
  rewrite (try_bind_returns _ _ _ _ _ _ E).
  rewrite (try_bind_returns _ _ _ _ _ _ F).
  reflexivity.
Qed.

(** The test on the url, spelled out. *)
Lemma still_on_main_page_spec (current_url : string) :
  (still_on_main_page current_url = true <->
   contains "google.com" current_url = true /\ contains "search" current_url = false) /\
  (still_on_main_page current_url = false <->
   contains "google.com" current_url = false \/ contains "search" current_url = true).
Proof.
  unfold still_on_main_page.
  destruct (contains "google.com" current_url), (contains "search" current_url);
    simpl; intuition discriminate.
Qed.


(** *** [find_element]: the first candidate that passes the checks *)

Lemma candidates_plain description c :
  In c (selector_maps (selector_type description)) -> closes_tag c = false.
Proof.
  unfold selector_maps. destruct (selector_type description =? "search")%string;
    simpl; intros H;
    repeat (destruct H as [<-|H]; [reflexivity|]); elim H.
Qed.

Lemma candidates_line_plain description :
  closes_tag (candidates_line description) = false.
Proof.
  unfold candidates_line, selector_type.
  destruct (existsb _ _); vm_compute; reflexivity.
Qed.

Lemma py_bool_plain b : closes_tag (py_bool b) = false.
Proof. now destruct b. Qed.

(** One candidate, call by call, when its lines get printed. *)
Lemma try_selector_run selector st p :
  renders_markup env ->
  (debug st = true -> plain_page env) ->
  closes_tag selector = false ->
  page st = Some p ->
  try_selector env selector st
  = let w := attached_wait p selector in
    match answer_ref env (trace st) w with
    | Fails _ | Ok None => (Returns false, log w st)
    | Ok (Some el) =>
        let s1 := log (ElementIsVisible el) (log w st) in
        match answer_bool env (trace (log w st)) (ElementIsVisible el) with
        | Fails _ | Ok false => (Returns false, s1)
        | Ok true =>
            let s2 := log (ElementIsEnabled el) s1 in
            match answer_bool env (trace s1) (ElementIsEnabled el) with
            | Fails _ | Ok false => (Returns false, s2)
            | Ok true =>
                match answer_text env (trace s2) (ElementBoundingBox el) with
                | Ok _ => (Returns true, log (ElementBoundingBox el) s2)
                | Fails _ => (Returns false, log (ElementBoundingBox el) s2)
                end
            end
        end
    end.
Proof.
  intros R Hp Hs P. unfold attached_wait. cbv zeta.
  assert (printable st selector) as Hsel by (intros _; exact Hs).
  unfold try_selector. printed R.
  set (w := PageWaitForSelector p selector "attached" (Some 5000)).
  assert (page_wait_for_selector env selector "attached" (Some 5000) st
          = (await (answer_ref env (trace st) w), log w st)) as W
      by (apply page_wait_for_selector_at; exact P).
  destruct (answer_ref env (trace st) w) as [[el|]|e] eqn:A; simpl in W.
  2:{ rewrite (try_bind_returns _ _ _ _ _ _ W). printed R. reflexivity. }
  2:{ rewrite (try_bind_raises _ _ _ _ _ _ W).
      assert (printable st (exn_str e)) as He
          by (intros D; exact (proj1 (proj2 (proj2 (proj2 (Hp D)))) _ _ _ A)).
      printed R. reflexivity. }
  rewrite (try_bind_returns _ _ _ _ _ _ W).
  set (s0 := log w st).
  assert (call_bool env (ElementIsVisible el) s0
          = (await (answer_bool env (trace s0) (ElementIsVisible el)),
             log (ElementIsVisible el) s0)) as V by reflexivity.
  destruct (answer_bool env (trace s0) (ElementIsVisible el)) as [vis|e] eqn:Av;
    simpl in V.
  2:{ rewrite (try_bind_raises _ _ _ _ _ _ V).
      assert (printable st (exn_str e)) as He
          by (intros D; exact (proj1 (proj2 (proj2 (Hp D))) _ _ _ Av)).
      printed R. reflexivity. }
  rewrite (try_bind_returns _ _ _ _ _ _ V).
  pose proof (py_bool_plain vis) as Hvis.
  printed R.
  destruct vis; [|reflexivity]. cbn [negb].
  set (s1 := log (ElementIsVisible el) s0).
  assert (call_bool env (ElementIsEnabled el) s1
          = (await (answer_bool env (trace s1) (ElementIsEnabled el)),
             log (ElementIsEnabled el) s1)) as En by reflexivity.
  destruct (answer_bool env (trace s1) (ElementIsEnabled el)) as [en|e] eqn:Ae;
    simpl in En.
  2:{ rewrite (try_bind_raises _ _ _ _ _ _ En).
      assert (printable st (exn_str e)) as He
          by (intros D; exact (proj1 (proj2 (proj2 (Hp D))) _ _ _ Ae)).
      printed R. reflexivity. }
  rewrite (try_bind_returns _ _ _ _ _ _ En).
  pose proof (py_bool_plain en) as Hen.
  printed R.
  destruct en; [|reflexivity]. cbn [negb].
  set (s2 := log (ElementIsEnabled el) s1).
  assert (call_text env (ElementBoundingBox el) s2
          = (await (answer_text env (trace s2) (ElementBoundingBox el)),
             log (ElementBoundingBox el) s2)) as Bx by reflexivity.
  destruct (answer_text env (trace s2) (ElementBoundingBox el)) as [box|e] eqn:Ab;
    simpl in Bx.
  2:{ rewrite (try_bind_raises _ _ _ _ _ _ Bx).
      assert (printable st (exn_str e)) as He
          by (intros D;
              exact (proj1 (proj2 (proj2 (proj2 (proj2 (Hp D))))) _ _ _ Ab)).
      printed R. reflexivity. }
  rewrite (try_bind_returns _ _ _ _ _ _ Bx).
  assert (printable st box) as Hbox
      by (intros D;
          exact (proj2 (proj2 (proj2 (proj2 (proj2 (Hp D))))) _ _ _ Ab)).
  printed R. printed R. reflexivity.
Qed.

Lemma try_selector_skips selector st p :
  renders_markup env ->
  (debug st = true -> plain_page env) ->
  closes_tag selector = false ->
  page st = Some p ->
  ~ measurable env p (trace st) selector ->
  exists st',
    try_selector env selector st = (Returns false, st') /\
    page st' = Some p /\ debug st' = debug st.
Proof.
  intros R Hp Hs P N. rewrite (try_selector_run selector st p R Hp Hs P). cbv zeta.
  destruct (answer_ref env (trace st) _) as [[el|]|e] eqn:A;
    [|eexists; split; [reflexivity | split; [exact P | reflexivity]]..].
  destruct (answer_bool env _ (ElementIsVisible el)) as [[|]|e] eqn:V;
    [|eexists; split; [reflexivity | split; [exact P | reflexivity]]..].
  destruct (answer_bool env _ (ElementIsEnabled el)) as [[|]|e] eqn:En;
    [|eexists; split; [reflexivity | split; [exact P | reflexivity]]..].
  destruct (answer_text env _ (ElementBoundingBox el)) as [box|e] eqn:B;
    [|eexists; split; [reflexivity | split; [exact P | reflexivity]]].
  elim N. exists el, box. simpl in V, En, B. rewrite <- !app_assoc in *.
  simpl in *. auto.
Qed.

Lemma try_selector_finds selector st p :
  renders_markup env ->
  (debug st = true -> plain_page env) ->
  closes_tag selector = false ->
  page st = Some p ->
  measurable env p (trace st) selector ->
  exists st', try_selector env selector st = (Returns true, st').
Proof.
  intros R Hp Hs P (el & box & A & V & En & B).
  rewrite (try_selector_run selector st p R Hp Hs P). cbv zeta.
  rewrite A. simpl. rewrite V. simpl. rewrite <- !app_assoc. simpl.
  rewrite En, B. eexists. reflexivity.
Qed.

Lemma try_selectors_first description front selector rest st p :
  renders_markup env ->
  (debug st = true -> plain_page env) ->
  (forall c, In c (front ++ selector :: rest) -> closes_tag c = false) ->
  page st = Some p ->
  (forall c tr, In c front -> ~ measurable env p tr c) ->
  (forall tr, measurable env p tr selector) ->
  fst (try_selectors env description (front ++ selector :: rest) st)
  = Returns selector.
Proof.
  intros R Hp Hc P Skip Hit. revert st Hp P.
  induction front as [|c front IH]; intros st Hp P; cbn [app try_selectors].
  - destruct (try_selector_finds selector st p R Hp (Hc _ (or_introl eq_refl)) P
                (Hit _)) as (st' & E).
    rewrite (bind_returns _ _ _ _ _ E). reflexivity.
  - destruct (try_selector_skips c st p R Hp (Hc _ (or_introl eq_refl)) P
                (Skip c _ (or_introl eq_refl))) as (st' & E & P' & D').
    rewrite (bind_returns _ _ _ _ _ E).
    apply IH.
    + intros c' I. apply Hc. now right.
    + intros c' tr I. apply Skip. now right.
    + intros D. apply Hp. congruence.
    + exact P'.
Qed.

Lemma try_selectors_exhausted description selectors st p :
  renders_markup env ->
  (debug st = true -> plain_page env) ->
  (forall c, In c selectors -> closes_tag c = false) ->
  page st = Some p ->
  (forall c tr, In c selectors -> ~ measurable env p tr c) ->
  fst (try_selectors env description selectors st)
  = Raises (mk_exn ValueError
              ("Could not find interactive element matching description: "
               ++ description)).
Proof.
  intros R Hp Hc P Skip. revert st Hp P.
  induction selectors as [|c selectors IH]; intros st Hp P; cbn [try_selectors].
  - reflexivity.
  - destruct (try_selector_skips c st p R Hp (Hc _ (or_introl eq_refl)) P
                (Skip c _ (or_introl eq_refl))) as (st' & E & P' & D').
    rewrite (bind_returns _ _ _ _ _ E).
    apply IH.
    + intros c' I. apply Hc. now right.
    + intros c' tr I. apply Skip. now right.
    + intros D. apply Hp. congruence.
    + exact P'.
Qed.

(** After the first lines and the two waits, the candidates are tried on
    the same page. *)
Lemma find_element_candidates description st p :
  renders_markup env ->
  (debug st = true -> plain_page env) ->
  printable st description ->
  page st = Some p ->
  exists st0,
    page st0 = Some p /\ debug st0 = debug st /\
    find_element env description st
    = try_selectors env description (selector_maps (selector_type description)) st0.
Proof.
  intros R Hp Hd P. unfold find_element. printed R.
  rewrite (bind_returns _ _ _ _ _ (page_url_at st p P)).
  assert (printable st (url_of env (trace st) p)) as Hu
      by (intros D; exact (proj1 (Hp D) _ _)).
  printed R. printed R.
  set (w1 := PageWaitForLoadState p "domcontentloaded" None).
  set (w2 := PageWaitForLoadState p "networkidle" None).
  pose proof (candidates_line_plain description) as Hl.
  assert (exists st0,
             page st0 = Some p /\ debug st0 = debug st /\
             try_except
               (page_wait_for_load_state env "domcontentloaded" None ;;
                page_wait_for_load_state env "networkidle" None)
               (fun e =>
                  debug_print env
                    ("‚ö†Ô∏è Warning: Page load state error: " ++ exn_str e) "warning")
               st = (Returns tt, st0)) as (st0 & P0 & D0 & W).
  { assert (page_wait_for_load_state env "domcontentloaded" None st
            = (await (answer_unit env (trace st) w1), log w1 st)) as W1
        by (apply page_wait_for_load_state_at; exact P).
    destruct (answer_unit env (trace st) w1) as [[]|e] eqn:A1; simpl in W1.
    - rewrite (try_bind_returns _ _ _ _ _ _ W1).
      assert (page_wait_for_load_state env "networkidle" None (log w1 st)
              = (await (answer_unit env (trace (log w1 st)) w2), log w2 (log w1 st)))
        as W2 by (apply page_wait_for_load_state_at; exact P).
      destruct (answer_unit env (trace (log w1 st)) w2) as [[]|e] eqn:A2; simpl in W2.
      + rewrite (try_returns _ _ _ _ _ W2). eexists. split; [|split]. 3: reflexivity. all: first [exact P | reflexivity].
      + rewrite (try_raises _ _ _ _ _ W2).
        assert (printable st (exn_str e)) as He
            by (intros D; exact (proj1 (proj2 (Hp D)) _ _ _ A2)).
        rewrite (debug_print_returns env _ _ _ R) by shown.
        eexists. split; [|split]. 3: reflexivity. all: first [exact P | reflexivity].
    - rewrite (try_bind_raises _ _ _ _ _ _ W1).
      assert (printable st (exn_str e)) as He
          by (intros D; exact (proj1 (proj2 (Hp D)) _ _ _ A1)).
      rewrite (debug_print_returns env _ _ _ R) by shown.
      eexists. split; [|split]. 3: reflexivity. all: first [exact P | reflexivity]. }
  rewrite (bind_returns _ _ _ _ _ W).
  exists st0. split; [exact P0|]. split; [exact D0|].
  printed R. reflexivity.
Qed.

(** C6, as the code has it: the description is of the search category
    exactly when its lower case contains [search], [input] or [text], and
    of the button category otherwise; the candidates of the category are
    tried in their order, and the first that is attached, visible and
    enabled and whose bounding box can be read is returned; a candidate
    that passes the three checks is skipped when the read of its bounding
    box raises.  So the third candidate is returned as it is when the first
    two are skipped, and a [ValueError] is raised when every candidate is.
    The statement is about the runs in which the debug lines get printed:
    with debug output on, the description and the texts of the page close
    no markup tag. *)
Theorem find_element_first_interactive (description : string) :
  let candidates := selector_maps (selector_type description) in
  candidates
  = (if contains "search" (lower description)
        || contains "input" (lower description)
        || contains "text" (lower description)
     then search_selectors else button_candidates) /\
  (forall st p,
      renders_markup env ->
      printable st description ->
      (debug st = true -> plain_page env) ->
      page st = Some p ->
      (forall front selector rest,
          candidates = (front ++ selector :: rest)%list ->
          (forall c tr, In c front -> ~ measurable env p tr c) ->
          (forall tr, measurable env p tr selector) ->
          fst (find_element env description st) = Returns selector) /\
      (forall first second third rest,
          candidates = first :: second :: third :: rest ->
          (forall tr, ~ measurable env p tr first) ->
          (forall tr, ~ measurable env p tr second) ->
          (forall tr, measurable env p tr third) ->
          fst (find_element env description st) = Returns third) /\
      ((forall c tr, In c candidates -> ~ measurable env p tr c) ->
       fst (find_element env description st)
       = Raises (mk_exn ValueError
                   ("Could not find interactive element matching description: "
                    ++ description)))) /\
  (forall p tr selector,
      measurable env p tr selector <->
      interactive env p tr selector /\
      exists el box,
        answer_ref env tr (attached_wait p selector) = Ok (Some el) /\
        answer_text env
          (tr ++ [attached_wait p selector; ElementIsVisible el; ElementIsEnabled el])
          (ElementBoundingBox el) = Ok box).
Proof.
  intros candidates. split; [|split].
  - unfold candidates, selector_type, selector_maps. simpl existsb.
    rewrite orb_false_r, orb_assoc.
    now destruct (_ || _).
  - intros st p R Hd Hp P.
    assert (forall front selector rest,
               candidates = (front ++ selector :: rest)%list ->
               (forall c tr, In c front -> ~ measurable env p tr c) ->
               (forall tr, measurable env p tr selector) ->
               fst (find_element env description st) = Returns selector) as First.
    { intros front selector rest C Skip Hit.
      destruct (find_element_candidates description st p R Hp Hd P)
        as (st0 & P0 & D0 & ->).
      fold candidates. rewrite C.
      apply try_selectors_first with (p := p); auto.
      - intros D. apply Hp. congruence.
      - intros c I. apply (candidates_plain description). fold candidates.
        now rewrite C. }
    split; [exact First|]. split.
    + intros c1 c2 c3 rest C N1 N2 Hit.
      apply (First [c1; c2] c3 rest); auto.
      intros c tr [<-|[<-|[]]]; auto.
    + intros Skip.
      destruct (find_element_candidates description st p R Hp Hd P)
        as (st0 & P0 & D0 & ->).
      apply try_selectors_exhausted with (p := p); auto.
      * intros D. apply Hp. congruence.
      * apply candidates_plain.
  - intros p tr selector. split.
    + intros (el & box & A & V & En & B). split.
      * exists el. auto.
      * exists el, box. auto.
    + intros ((el & A & V & En) & (el' & box & A' & B)).
      rewrite A in A'. injection A' as <-.
      exists el, box. auto.
Qed.

(** *** What the actions leave alone *)

Lemma forallb_any_call calls : forallb any_call calls = true.
Proof. induction calls; simpl; auto. Qed.

Ltac unfold_actions :=
  unfold navigate, navigate_first, navigate_retry, click,
    type, type_and_press_enter, submit_fallback, get_text,
    find_element;
  unfold_page_calls.

Lemma click_search_button_keeps_llm selectors :
  keeps llm (click_search_button env selectors).
Proof. induction selectors as [|s rest IH]; simpl; unfold_page_calls; frame. Qed.

Lemma try_selectors_keeps_llm description selectors :
  keeps llm (try_selectors env description selectors).
Proof.
  induction selectors as [|s rest IH]; simpl; [frame|].
  unfold try_selector. unfold_page_calls. frame.
Qed.

Lemma click_search_button_keeps_debug selectors :
  keeps debug (click_search_button env selectors).
Proof. induction selectors as [|s rest IH]; simpl; unfold_page_calls; frame. Qed.

Lemma try_selectors_keeps_debug description selectors :
  keeps debug (try_selectors env description selectors).
Proof.
  induction selectors as [|s rest IH]; simpl; [frame|].
  unfold try_selector. unfold_page_calls. frame.
Qed.

Lemma click_search_button_calls selectors :
  only_calls any_call (click_search_button env selectors).
Proof. induction selectors as [|s rest IH]; simpl; unfold_page_calls; frame. Qed.

Lemma try_selectors_calls description selectors :
  only_calls any_call (try_selectors env description selectors).
Proof.
  induction selectors as [|s rest IH]; simpl; [frame|].
  unfold try_selector. unfold_page_calls. frame.
Qed.

(** The method a well-formed call runs is one of the five. *)
Lemma run_tool_method tool values m :
  run_tool env tool values = Some m ->
  (exists a, m = navigate env a) \/ (exists a, m = click env a) \/
  (exists a, m = get_text env a) \/ (exists a, m = find_element env a) \/
  (exists a b, m = type env a b).
Proof.
  unfold run_tool. intros H.
  destruct values as [|[| | | |a| |] [|[| | | |b| |] [|? ?]]]; try discriminate H;
    repeat match type of H with
           | (if ?c then _ else _) = _ => destruct c
           end;
    try discriminate H; injection H as <-; eauto 10.
Qed.

(** What holds of the five methods, of a call that raises at once and of a
    call with other values holds of every dispatch. *)
Lemma call_tool_cases (Q : M string -> Prop) tool args :
  (forall e, Q (raise e)) ->
  (forall a, Q (navigate env a)) ->
  (forall a, Q (click env a)) ->
  (forall a, Q (get_text env a)) ->
  (forall a, Q (find_element env a)) ->
  (forall a b, Q (type env a b)) ->
  Q (fun st => (fst (other_values py tool args st),
                made (snd (other_values py tool args st)) st)) ->
  Q (call_tool env py tool args).
Proof.
  intros Hr Hn Hc Hg Hf Ht Ho. unfold call_tool.
  destruct (negb _); [apply Hr|].
  destruct args as [| | | | | |d]; try apply Hr.
  destruct (bind_keywords _ d) as [values|]; [|apply Hr].
  destruct (run_tool env tool values) as [m|] eqn:E; [|exact Ho].
  destruct (run_tool_method _ _ _ E)
    as [(a & ->)|[(a & ->)|[(a & ->)|[(a & ->)|(a & b & ->)]]]]; auto.
Qed.

Lemma call_tool_keeps_llm tool args : keeps llm (call_tool env py tool args).
Proof.
  pose proof click_search_button_keeps_llm.
  pose proof try_selectors_keeps_llm.
  apply call_tool_cases; intros; try (intros st; reflexivity);
    unfold_actions; frame.
Qed.

Lemma call_tool_keeps_debug tool args : keeps debug (call_tool env py tool args).
Proof.
  pose proof click_search_button_keeps_debug.
  pose proof try_selectors_keeps_debug.
  apply call_tool_cases; intros; try (intros st; reflexivity);
    unfold_actions; frame.
Qed.

Lemma call_tool_calls tool args : only_calls any_call (call_tool env py tool args).
Proof.
  pose proof click_search_button_calls.
  pose proof try_selectors_calls.
  apply call_tool_cases; intros;
    try (intros st; eexists; split; [reflexivity | apply forallb_any_call]);
    unfold_actions; frame.
Qed.

Lemma act_and_ask_keeps_llm client command messages reply :
  keeps llm (act_and_ask env py client command messages reply).
Proof.
  pose proof call_tool_keeps_llm.
  unfold act_and_ask, parse_action, validate. unfold_page_calls. frame.
Qed.

Lemma act_and_ask_keeps_debug client command messages reply :
  keeps debug (act_and_ask env py client command messages reply).
Proof.
  pose proof call_tool_keeps_debug.
  unfold act_and_ask, parse_action, validate. unfold_page_calls. frame.
Qed.

Lemma act_and_ask_calls client command messages reply :
  only_calls any_call (act_and_ask env py client command messages reply).
Proof.
  pose proof call_tool_calls.
  unfold act_and_ask, parse_action, validate. unfold_page_calls. frame.
Qed.

Lemma execute_calls fuel command :
  only_calls any_call (execute env py fuel command).
Proof.
  pose proof act_and_ask_calls.
  induction fuel as [|fuel IH]; cbn [execute]; [frame|].
  unfold on_processing_error, on_error, conclude. unfold_page_calls. frame.
Qed.

Lemma after_reply_calls client command current_url reply fuel command' :
  only_calls any_call
    (after_reply env py client command current_url reply
       (execute env py fuel command')).
Proof.
  pose proof act_and_ask_calls. pose proof execute_calls.
  unfold after_reply, on_processing_error, on_error, conclude. frame.
Qed.

(** *** [execute]: one round *)

Lemma execute_without_llm fuel command st :
  llm st = None ->
  execute env py (S fuel) command st
  = (Raises (mk_exn RuntimeError "Agent not initialized. Call setup() first."), st).
Proof. intros L. cbn [execute]. unfold bind, get. now rewrite L. Qed.

(** Up to the answer to the proposal request, when the lines get printed. *)
Lemma execute_asks_first fuel command st client :
  renders_markup env ->
  printable st command ->
  printable st (current_url_of env st) ->
  llm st = Some client ->
  execute env py (S fuel) command st
  = match answer_text env (trace st) (proposal_request env client command st) with
    | Ok reply =>
        after_reply env py client command (current_url_of env st)
          reply (execute env py fuel command)
          (log (proposal_request env client command st) st)
    | Fails e => on_error env e (log (proposal_request env client command st) st)
    end.
Proof.
  intros R Hc Hu L. cbn [execute].
  rewrite (bind_returns _ _ st (Some client) st) by (unfold get; now rewrite L).
  printed R.
  rewrite (try_bind_returns (get page) _ _ st (page st) st) by reflexivity.
  unfold after_reply, proposal_request. unfold current_url_of in *.
  destruct (page st) as [p|] eqn:P.
  - rewrite (try_bind_returns _ _ _ _ _ _ (page_url_at st p P)).
    do 3 printed R.
    set (request := GetCompletion client _).
    destruct (answer_text env (trace st) request) as [reply|e] eqn:A.
    + rewrite (try_bind_returns _ _ _ st reply (log request st))
        by (unfold call_text; now rewrite A).
      reflexivity.
    + rewrite (try_bind_raises _ _ _ st e (log request st))
        by (unfold call_text; now rewrite A).
      reflexivity.
  - rewrite (try_bind_returns (ret "No page loaded") _ _ st _ st) by reflexivity.
    do 3 printed R.
    set (request := GetCompletion client _).
    destruct (answer_text env (trace st) request) as [reply|e] eqn:A.
    + rewrite (try_bind_returns _ _ _ st reply (log request st))
        by (unfold call_text; now rewrite A).
      reflexivity.
    + rewrite (try_bind_raises _ _ _ st e (log request st))
        by (unfold call_text; now rewrite A).
      reflexivity.
Qed.

(** The round raises: the two handlers print and raise. *)
Lemma after_reply_raises client command current_url reply again st e st' :
  renders_markup env ->
  printable st reply ->
  printable st' reply ->
  printable st' (exn_str e) ->
  act_and_ask env py client command
    (proposal_messages current_url command) reply st = (Raises e, st') ->
  after_reply env py client command current_url reply again st
  = (Raises (parse_failure e), st').
Proof.
  intros R Hr Hr' He H. unfold after_reply. printed R.
  assert (try_except
            (checked <- act_and_ask env py client command
                          (proposal_messages current_url command) reply ;;
             conclude env again checked)
            (on_processing_error env reply) st
          = (Raises (parse_failure e), st')) as I.
  { rewrite (try_bind_raises _ _ _ _ _ _ H).
    unfold on_processing_error, parse_failure.
    destruct (exn_class_eqb (exn_type e) JSONDecodeError); printed R; reflexivity. }
  rewrite (try_raises _ _ _ _ _ I). unfold on_error.
  assert (printable st' (exn_str (parse_failure e))) as Hf.
  { unfold parse_failure. destruct (exn_class_eqb (exn_type e) JSONDecodeError);
      [|exact He]. intros D. specialize (He D). plain_text. }
  printed R. reflexivity.
Qed.

(** The round returns: DONE ends the command, anything else starts over. *)
Lemma after_reply_returns client command current_url reply again st result next st2 :
  renders_markup env ->
  printable st reply ->
  act_and_ask env py client command
    (proposal_messages current_url command) reply st
  = (Returns (result, next), st2) ->
  after_reply env py client command current_url reply again st
  = if more_steps_needed next
    then try_except (try_except again (on_processing_error env reply)) (on_error env) st2
    else (Returns result, st2).
Proof.
  intros R Hr H. unfold after_reply. printed R.
  unfold try_except at 1. rewrite (try_bind_returns _ _ _ _ _ _ H).
  unfold conclude. cbn [fst snd].
  destruct (more_steps_needed next); printed R; reflexivity.
Qed.

(** *** [execute]: where a round that does not get to its action stops *)

Lemma skip_print {A} (S : State -> Prop) message level (k : unit -> M A) st :
  S st -> S (snd (k tt st)) -> S (snd (bind (debug_print env message level) k st)).
Proof.
  intros H1 H2.
  destruct (debug_print_cases env message level st) as [E|(e & E)].
  - now rewrite (bind_returns _ _ _ _ _ E).
  - now rewrite (bind_raises _ _ _ _ _ E).
Qed.

Lemma on_error_state e st : snd (on_error env e st) = st.
Proof.
  unfold on_error.
  destruct (debug_print_cases env ("‚ùå Error executing command: " ++ exn_str e)
              "error" st) as [E|(e' & E)].
  - now rewrite (bind_returns _ _ _ _ _ E).
  - now rewrite (bind_raises _ _ _ _ _ E).
Qed.

Lemma on_processing_error_state reply e st :
  snd (on_processing_error env reply e st) = st.
Proof.
  unfold on_processing_error.
  destruct (exn_class_eqb (exn_type e) JSONDecodeError);
    match goal with
    | |- context [debug_print env ?m ?l] =>
        destruct (debug_print_cases env m l st) as [E|(e' & E)]
    end;
    first [now rewrite (bind_returns _ _ _ _ _ E) | now rewrite (bind_raises _ _ _ _ _ E)].
Qed.

Lemma try_state {A} (m : M A) (h : exn -> M A) st :
  (forall e st', snd (h e st') = st') -> snd (try_except m h st) = snd (m st).
Proof.
  intros H. unfold try_except. destruct (m st) as [[a|e|] st']; simpl; auto.
Qed.

(** A round that stops before its action leaves the agent where the
    proposal request left it, or where it was when the first line of
    [execute] could not be printed. *)
Lemma execute_stops_early fuel command st client reply :
  llm st = Some client ->
  answer_text env (trace st) (proposal_request env client command st) = Ok reply ->
  let asked := log (proposal_request env client command st) st in
  snd (act_and_ask env py client command
         (proposal_messages (current_url_of env st) command) reply asked) = asked ->
  (forall checked,
      fst (act_and_ask env py client command
             (proposal_messages (current_url_of env st) command) reply asked)
      <> Returns checked) ->
  snd (execute env py (S fuel) command st) = st \/
  snd (execute env py (S fuel) command st) = asked.
Proof.
  intros L A asked Hs Hn. cbn [execute].
  rewrite (bind_returns _ _ st (Some client) st) by (unfold get; now rewrite L).
  apply (skip_print (fun s => s = st \/ s = asked)); [now left|].
  rewrite (try_state _ _ _ (on_error_state)).
  rewrite (bind_returns (get page) _ st (page st) st) by reflexivity.
  assert (forall k : string -> M string,
             (snd (k (current_url_of env st) st) = st \/
              snd (k (current_url_of env st) st) = asked) ->
             snd (bind match page st with
                       | Some _ => page_url env
                       | None => ret "No page loaded"
                       end k st) = st \/
             snd (bind match page st with
                       | Some _ => page_url env
                       | None => ret "No page loaded"
                       end k st) = asked) as Url.
  { intros k H. unfold current_url_of in H. destruct (page st) as [p|] eqn:P.
    - now rewrite (bind_returns _ _ _ _ _ (page_url_at st p P)).
    - exact H. }
  apply Url.
  do 3 (apply (skip_print (fun s => s = st \/ s = asked)); [now left|]).
  rewrite (bind_returns _ _ st reply asked)
    by (unfold call_text; fold (proposal_request env client command st);
        now rewrite A).
  apply (skip_print (fun s => s = st \/ s = asked)); [now right|].
  rewrite (try_state _ _ _ (on_processing_error_state reply)).
  right. unfold bind.
  destruct (act_and_ask env py client command _ reply asked) as [[checked|e|] s] eqn:E;
    simpl in *; [now elim (Hn checked) | exact Hs | exact Hs].
Qed.

(** *** [execute]: a reply without a proposal *)

Lemma act_and_ask_without_action client command messages reply st e :
  parse_action py reply st = (Raises e, st) ->
  act_and_ask env py client command messages reply st = (Raises e, st).
Proof. intros H. unfold act_and_ask. now apply bind_raises. Qed.

Lemma parse_action_fails reply st :
  extract_json reply = None \/
  (exists js e, extract_json reply = Some js /\ json_loads py js = inr e) ->
  exists e, parse_action py reply st = (Raises e, st).
Proof.
  unfold parse_action. intros [E|(js & e & E & J)]; rewrite E.
  - eexists. reflexivity.
  - rewrite J. eexists. reflexivity.
Qed.


(** *** [execute]: a proposal that does not pass the validation *)

Lemma known_tool name : existsb (String.eqb name) tools = true <-> In name tools.
Proof.
  rewrite existsb_exists. split.
  - intros (x & I & E). apply String.eqb_eq in E. now subst.
  - intros I. exists name. split; [assumption | apply String.eqb_refl].
Qed.

Lemma validate_rejects action st :
  ~ valid_proposal action ->
  exists e, validate py action st = (Raises e, st) /\
            invalid_proposal_error py e /\
            (closes_tag (tool_text py action) = false -> closes_tag (exn_str e) = false).
Proof.
  intros N. unfold validate, tool_text.
  destruct action as [| | | | |items|d];
    try (eexists; split; [reflexivity | split; [constructor | reflexivity]]).
  destruct (lookup "tool" d) as [tool|] eqn:T;
    [|eexists; split; [reflexivity | split; [constructor | reflexivity]]].
  destruct (lookup "args" d) as [args|] eqn:Ar;
    [|eexists; split; [reflexivity | split; [constructor | reflexivity]]].
  destruct tool as [| | | |name|items|items]; cbn [unhashable];
    try (eexists; split;
         [reflexivity
         | split; [constructor; discriminate | intros H; cbn [exn_str]; plain_text]]).
  destruct (existsb (String.eqb name) tools) eqn:K.
  - elim N. exists d, name, args. repeat split; try assumption.
    now apply known_tool.
  - eexists; split; [reflexivity|]. split.
    + apply (unknown_tool py (PStr name)).
      intros name' [= <-] I. apply known_tool in I. congruence.
    + intros H. cbn [exn_str]. plain_text.
Qed.


(** *** [execute]: the continuation check *)

(** C2, as the code has it: when the round has come to the reply to the
    continuation check and that reply contains DONE in any letter case,
    [execute] returns the text the action returned.  When it does not,
    [execute] runs again on the same command, from the state the round has
    left; that run starts with a request made of the system prompt and of
    the current url with the command, and of nothing else: the messages of
    the round before are not in it.  The statement is about the runs in
    which the lines [execute] prints before the round get printed. *)
Theorem execute_continuation (command : string) (st st2 : State) (client : handle)
  (reply result next_response : string) :
  renders_markup env ->
  printable st command ->
  printable st (current_url_of env st) ->
  printable st reply ->
  llm st = Some client ->
  answer_text env (trace st) (proposal_request env client command st) = Ok reply ->
  act_and_ask env py client command
    (proposal_messages (current_url_of env st) command) reply
    (log (proposal_request env client command st) st)
  = (Returns (result, next_response), st2) ->
  (contains "DONE" (upper next_response) = true ->
   forall fuel,
     execute env py (S fuel) command st = (Returns result, st2)) /\
  (contains "DONE" (upper next_response) = false ->
   forall fuel,
     execute env py (S fuel) command st
     = try_except
         (try_except (execute env py fuel command) (on_processing_error env reply))
         (on_error env) st2 /\
     (printable st (current_url_of env st2) ->
      exists rest,
        trace (snd (execute env py (S fuel) command st2))
        = (trace st2 ++
           GetCompletion client
             [ mk_message "system" SYSTEM_PROMPT;
               mk_message "user"
                 ("Current page: " ++ current_url_of env st2 ++ nl ++
                  "Command: " ++ command) ] :: rest)%list)).
Proof.
  intros R Hc Hu Hr L A H. split.
  - intros D fuel. rewrite (execute_asks_first _ _ _ _ R Hc Hu L), A.
    rewrite (after_reply_returns _ _ _ _ _ _ _ _ _ R
               (Hr : printable (log _ st) reply) H).
    unfold more_steps_needed. now rewrite D.
  - intros D fuel. split.
    + rewrite (execute_asks_first _ _ _ _ R Hc Hu L), A.
      rewrite (after_reply_returns _ _ _ _ _ _ _ _ _ R
               (Hr : printable (log _ st) reply) H).
      unfold more_steps_needed. now rewrite D.
    + intros Hu2.
      assert (llm st2 = Some client) as L2.
      { pose proof (act_and_ask_keeps_llm client command
                      (proposal_messages (current_url_of env st) command) reply
                      (log (proposal_request env client command st) st)) as K.
        rewrite H in K. simpl in K. congruence. }
      assert (debug st2 = debug st) as D2.
      { pose proof (act_and_ask_keeps_debug client command
                      (proposal_messages (current_url_of env st) command) reply
                      (log (proposal_request env client command st) st)) as K.
        now rewrite H in K. }
      assert (printable st2 command) as Hc2 by (intros X; apply Hc; congruence).
      assert (printable st2 (current_url_of env st2)) as Hu3
          by (intros X; apply Hu2; congruence).
      rewrite (execute_asks_first _ _ _ _ R Hc2 Hu3 L2).
      change (GetCompletion client _) with (proposal_request env client command st2).
      destruct (answer_text env (trace st2) _) as [reply2|e].
      * destruct (after_reply_calls client command (current_url_of env st2) reply2
                    fuel command
                    (log (proposal_request env client command st2) st2))
          as (calls & T & _).
        exists calls. rewrite T. simpl. now rewrite <- app_assoc.
      * exists []. now rewrite on_error_state.
Qed.

End Behaviour.
(* ================================================================== *)
(** * Concrete runs *)

Import Sample.

(** ** The scripted console and pages *)

Lemma closing_tags_append (a b : string) :
  closes_tag a = false ->
  ends_bracket a = false \/ String.prefix "/" b = false ->
  closing_tags (a ++ b) = closing_tags b.
Proof.
  unfold closes_tag. induction a as [|x a IH]; intros Ha Hb; [reflexivity|].
  cbn [append contains closing_tags] in *. rewrite prefix_tag in *.
  apply orb_false_iff in Ha as [Hx Ha].
  rewrite IH; [|exact Ha|].
  - replace (Ascii.eqb x "[" && String.prefix "/" (a ++ b))%bool with false;
      [reflexivity|].
    symmetry. destruct (Ascii.eqb x "[") eqn:X; [|reflexivity]. cbn [andb] in *.
    destruct a as [|y a]; cbn [append].
    + destruct Hb as [Hb|Hb]; [|exact Hb]. cbn [ends_bracket] in Hb. congruence.
    + cbn [String.prefix] in *. destruct (ascii_dec "/" y); [|reflexivity].
      destruct a; discriminate Hx.
  - destruct a as [|y a]; [now left|]. exact Hb.
Qed.

(** The scripted console shows the lines that close no tag but their own. *)
Lemma sample_console (s : Script) : renders_markup (play s).
Proof.
  intros style message I H. unfold play, console, markup_console.
  assert (closing_tags (markup style message) = 1%nat) as ->; [|reflexivity].
  unfold markup, styles in *.
  repeat (destruct I as [<-|I];
          [repeat (rewrite closing_tags_append;
                   [ | first [assumption | reflexivity]
                     | first [left; reflexivity | right; reflexivity] ]);
           reflexivity|]).
  elim I.
Qed.

(** A script whose urls, errors and boxes close no tag plays a plain page. *)
Lemma sample_plain_page (s : Script) :
  (forall p, closes_tag (url s p) = false) ->
  (forall p e, goto s p = Fails e -> closes_tag (exn_str e) = false) ->
  (forall sel e, element s sel = Fails e -> closes_tag (exn_str e) = false) ->
  (forall c e, other s c = Fails e -> closes_tag (exn_str e) = false) ->
  (forall el e, box s el = Fails e -> closes_tag (exn_str e) = false) ->
  (forall el b, box s el = Ok b -> closes_tag b = false) ->
  plain_page (play s).
Proof.
  intros Hu Hg He Ho Hb Hb'. unfold plain_page, play. cbn.
  split; [intros; apply Hu|]. split; [intros tr c err; apply Ho|].
  split; [intros tr c err H; destruct c; discriminate H|].
  split.
  { intros tr c err H; destruct c; try discriminate H; eauto. }
  split.
  { intros tr c err H; destruct c; try discriminate H; eauto.
    destruct (nth_error _ _); [discriminate H|]. now injection H as <-. }
  intros tr el b. apply Hb'.
Qed.

Lemma third_candidate_page_plain : plain_page (play third_candidate_page).
Proof.
  apply sample_plain_page; cbn; try discriminate; try reflexivity.
  - intros sel e.
    repeat match goal with
           | |- context [if ?c then _ else _] => destruct c
           end; intros [= <-]; reflexivity.
  - intros el b [= <-]. reflexivity.
Qed.

(** ** [navigate] *)

Lemma offline_first_attempt :
  navigate_first (play offline) (normalize_url "example.org") ready
  = (Raises timeout_error, offline_first).
Proof. vm_compute. reflexivity. Qed.

Lemma example_printable st : printable st "example.org".
Proof. intros _. reflexivity. Qed.

Lemma timeout_printable st : printable st (exn_str timeout_error).
Proof. intros _. reflexivity. Qed.



(** ** [close] *)

Lemma close_skips_releases_after_failure :
  let st' := snd (close (play broken_connection) ready) in
  fst (close (play broken_connection) ready)
  = Raises (mk_exn PlaywrightError "Connection closed") /\
  playwright ready = Some 11%nat /\
  chrome_process ready = Some 30%nat /\
  trace st' = [BrowserClose 10%nat] /\
  ~ In (PlaywrightStop 11%nat) (trace st') /\
  ~ In (ProcessKill 30%nat) (trace st').
Proof.
  vm_compute. repeat split; try (intros [H|[]]; discriminate).
Qed.

Lemma plain_close : fst (close (play plain) ready) = Returns tt.
Proof. vm_compute. reflexivity. Qed.

Lemma close_stops_at_first_failure_witness :
  exists done skipped,
    trace (snd (close (play plain) ready)) = (trace ready ++ done)%list /\
    release_calls ready = (done ++ skipped)%list /\
    skipped = [].
Proof.
  destruct (close_stops_at_first_failure (play plain) ready)
    as (done & skipped & T & R & H).
  exists done, skipped. repeat split; try assumption.
  rewrite plain_close in H.
  exact (proj1 H).
Defined.

(** ** [type] and [find_element] *)

Lemma search_page_enter :
  type_and_press_enter (play search_page) "[name='q']" "rocq" ready
  = (Returns tt, after_enter).
Proof. vm_compute. reflexivity. Qed.

Lemma after_enter_page : page after_enter = Some 1%nat.
Proof. vm_compute. reflexivity. Qed.

Lemma after_enter_wait :
  answer_unit (play search_page) (trace after_enter) (load_wait 1%nat) = Ok tt.
Proof. vm_compute. reflexivity. Qed.

Lemma after_enter_url :
  contains "google.com"
    (url_of (play search_page) (trace after_enter ++ [load_wait 1%nat]) 1%nat) = false.
Proof. vm_compute. reflexivity. Qed.

Lemma typing_line_printed :
  debug_print (play search_page) (typing_line "[name='q']" "rocq") "info" ready
  = (Returns tt, ready).
Proof. vm_compute. reflexivity. Qed.


Lemma third_candidates :
  selector_maps (selector_type "Search box")
  = "[name='q']" :: "#searchbox_input" :: "[data-testid='searchbox_input']"
                 :: skipn 3 search_selectors.
Proof. vm_compute. reflexivity. Qed.

Lemma first_candidate_absent tr :
  ~ measurable (play third_candidate_page) 1%nat tr "[name='q']".
Proof. intros (el & b & A & _). vm_compute in A. discriminate A. Qed.

Lemma second_candidate_hidden tr :
  ~ measurable (play third_candidate_page) 1%nat tr "#searchbox_input".
Proof.
  intros (el & b & A & V & _). vm_compute in A. injection A as <-.
  vm_compute in V. discriminate V.
Qed.

Lemma third_candidate_measurable tr :
  measurable (play third_candidate_page) 1%nat tr "[data-testid='searchbox_input']".
Proof. exists 102%nat, some_box. repeat split. Qed.

Lemma search_box_printable st : printable st "Search box".
Proof. intros _. reflexivity. Qed.

Lemma find_element_first_interactive_witness :
  page ready = Some 1%nat
  /\ (forall tr, ~ measurable (play third_candidate_page) 1%nat tr "[name='q']")
  /\ (forall tr, ~ measurable (play third_candidate_page) 1%nat tr "#searchbox_input")
  /\ (forall tr, measurable (play third_candidate_page) 1%nat tr
                   "[data-testid='searchbox_input']")
  /\ fst (find_element (play third_candidate_page) "Search box" ready)
     = Returns "[data-testid='searchbox_input']".
Proof.
  split; [reflexivity|].
  split; [exact first_candidate_absent|].
  split; [exact second_candidate_hidden|].
  split; [exact third_candidate_measurable|].
  destruct (proj1 (proj2
              (find_element_first_interactive (play third_candidate_page) "Search box"))
              ready 1%nat (sample_console third_candidate_page)
              (search_box_printable ready) (fun _ => third_candidate_page_plain)
              eq_refl) as (_ & H & _).
  exact (H _ _ _ (skipn 3 search_selectors) third_candidates
           first_candidate_absent second_candidate_hidden
           third_candidate_measurable).
Defined.

(** C6 fails as stated: the first candidate of the search category is
    attached, visible and enabled whenever it is asked about, and
    [find_element] returns the fourth one, because the read of the bounding
    box of the first raises and sends the loop on. *)
Lemma find_element_skips_unmeasured :
  (forall tr, interactive (play unmeasured_page) 1%nat tr "[name='q']") /\
  nth_error (selector_maps (selector_type "search box")) 0 = Some "[name='q']" /\
  nth_error (selector_maps (selector_type "search box")) 3 = Some "[type='text']" /\
  fst (find_element (play unmeasured_page) "search box" ready)
  = Returns "[type='text']".
Proof.
  split; [intros tr; exists 100%nat; repeat split|].
  vm_compute. repeat split.
Qed.

(** ** [execute] and the records of the actions *)

Lemma go_printable st : printable st go.
Proof. intros _. reflexivity. Qed.

Lemma example_url_printable (s : Script) :
  url s = (fun _ => "https://example.org/") ->
  printable ready (current_url_of (play s) ready).
Proof. intros E _. unfold current_url_of, play. cbn. rewrite E. reflexivity. Qed.

Lemma navigate_json_printable st : printable st navigate_json.
Proof. intros _. vm_compute. reflexivity. Qed.

Lemma one_round_reply :
  answer_text (play one_round) (trace ready) (proposal_request (play one_round) 40%nat go ready)
  = Ok navigate_json.
Proof. vm_compute. reflexivity. Qed.

Lemma one_round_check :
  act_and_ask (play one_round) python 40%nat go
    (proposal_messages (current_url_of (play one_round) ready) go) navigate_json
    (asked (play one_round))
  = (Returns ("Navigated to https://example.org/", "DONE"), checked (play one_round)).
Proof. vm_compute. reflexivity. Qed.

Lemma execute_continuation_witness :
  llm ready = Some 40%nat
  /\ contains "DONE" (upper "DONE") = true
  /\ execute (play one_round) python 1 go ready
     = (Returns "Navigated to https://example.org/", checked (play one_round)).
Proof.
  split; [reflexivity|]. split; [reflexivity|].
  apply (proj1 (execute_continuation (play one_round) python go
                  ready _ 40%nat _ _ _ (sample_console one_round) (go_printable ready)
                  (example_url_printable one_round eq_refl)
                  (navigate_json_printable ready)
                  eq_refl one_round_reply one_round_check)).
  reflexivity.
Defined.

(** C2 fails as stated: in the second round the proposal request is made of
    the system prompt and the context alone; no message of the first round,
    neither the action nor its result, is in it. *)
Lemma execute_forgets_conversation :
  let run := execute (play two_rounds) python 2 go ready in
  fst run = Returns "Navigated to https://example.org/" /\
  nth_error (completion_requests (trace (snd run))) 2
  = Some (proposal_messages "https://example.org/" go) /\
  forall m, In m (proposal_messages "https://example.org/" go) ->
            role m <> "assistant" /\
            contains "Previous action result" (content m) = false.
Proof.
  split; [vm_compute; reflexivity|]. split; [vm_compute; reflexivity|].
  intros m [<-|[<-|[]]]; split; try discriminate; vm_compute; reflexivity.
Qed.

Lemma refusal_reply :
  answer_text (play refusal) (trace ready) (proposal_request (play refusal) 40%nat go ready)
  = Ok "I cannot do that.".
Proof. vm_compute. reflexivity. Qed.

Lemma refusal_printable st : printable st "I cannot do that.".
Proof. intros _. reflexivity. Qed.



Lemma scrolling_reply :
  answer_text (play scrolling) (trace ready)
    (proposal_request (play scrolling) 40%nat go ready) = Ok scroll_json.
Proof. vm_compute. reflexivity. Qed.

Lemma scroll_json_cut : extract_json scroll_json = Some scroll_json.
Proof. vm_compute. reflexivity. Qed.

Lemma scroll_json_parsed : json_loads python scroll_json = inl scroll_action.
Proof. vm_compute. reflexivity. Qed.

Lemma scroll_is_no_tool : ~ valid_proposal scroll_action.
Proof.
  intros (d & name & args & E & T & _ & I). injection E as <-.
  vm_compute in T. injection T as <-.
  repeat (destruct I as [I|I]; [discriminate I|]). exact I.
Qed.

Lemma scroll_json_printable st : printable st scroll_json.
Proof. intros _. vm_compute. reflexivity. Qed.

Lemma scroll_dump_printable st : printable st (json_dumps python scroll_action).
Proof. intros _. reflexivity. Qed.

Lemma scroll_tool_printable st : printable st (tool_text python scroll_action).
Proof. intros _. reflexivity. Qed.



(** C1 does not hold of the code: a [find_element] that finds its element
    and a [navigate] that succeeds on the fresh page both return their
    result and leave [action_history] as it was. *)
Theorem successes_without_record :
  (fst (find_element (play search_page) "search box" ready) = Returns "[name='q']" /\
   action_history (snd (find_element (play search_page) "search box" ready))
   = action_history ready) /\
  (fst (navigate (play stuck_first_page) "example.org" ready)
   = Returns "Navigated to https://example.org (with fresh page)" /\
   action_history (snd (navigate (play stuck_first_page) "example.org" ready))
   = action_history ready).
Proof. vm_compute. repeat split. Qed.

(** C3 does not hold of the code: when no element matches, the wait for
    visibility that [get_text] starts with times out, and [get_text] raises
    that error; the message for a missing element is never reached. *)
Theorem get_text_raises_on_missing_element :
  get_text (play plain) "#missing" ready
  = (Raises timeout_error,
     log (PageWaitForSelector 1%nat "#missing" "visible" None) ready).
Proof. vm_compute. reflexivity. Qed.

